(** * Claim classifier: text encoding and the scoring service

    A shallow embedding of the text-to-index encoder of the notebooks
    [03 Claim Classification] and [04 Deploy Classifier Web Service]
    ([remove_special_characters], [convert_to_indices]) and of the scoring
    entry point [run] of [scoring_service.py], followed by the properties
    of the encoding pipeline and of the scoring contract. *)

From Stdlib Require Import String Ascii List ZArith NArith Bool Lia.
From Stdlib Require Import DecimalString SpecFloat.
From stdpp Require Import gmap strings list.

Local Open Scope string_scope.
Local Open Scope list_scope.
Local Open Scope Z_scope.

(** ** Python values used by the code *)

Module Py.

(** Exceptions.  Only subclasses of [Exception] occur; [exn_msg] is the
    text that [str(e)] yields. *)
Inductive exn_class : Set :=
| ValueError | TypeError | AttributeError | NameError | OtherError.

Record exn : Set := Exn { exn_cls : exn_class; exn_msg : string }.

Definition exn_class_eqb (a b : exn_class) : bool :=
  match a, b with
  | ValueError, ValueError | TypeError, TypeError
  | AttributeError, AttributeError | NameError, NameError
  | OtherError, OtherError => true
  | _, _ => false
  end.

(** A computation that returns a value or raises. *)
Inductive result (A : Type) : Type :=
| Ok (a : A)
| Raise (e : exn).
Arguments Ok {A} a.
Arguments Raise {A} e.

Definition bind {A B} (m : result A) (k : A -> result B) : result B :=
  match m with
  | Ok a => k a
  | Raise e => Raise e
  end.

(** [try: body / except cls: handler] *)
Definition try_except {A} (cls : exn_class) (body : result A)
    (handler : exn -> result A) : result A :=
  match body with
  | Ok a => Ok a
  | Raise e => if exn_class_eqb (exn_cls e) cls then handler e else Raise e
  end.

(** A [for] loop whose body threads the loop state and may raise. *)
Fixpoint for_each {A S} (body : S -> A -> result S) (l : list A) (s : S)
    : result S :=
  match l with
  | [] => Ok s
  | x :: l' => bind (body s x) (for_each body l')
  end.

(** *** Strings

    A [str] is a sequence of code points; the model carries the code
    points below 256, the range of [ascii]. *)

Definition code (c : ascii) : N := N_of_ascii c.

Definition between (lo hi n : N) : bool := ((lo <=? n) && (n <=? hi))%N.

(** [str.isspace] on one character: TAB..CR, FS..US, SPACE, NEL, NBSP. *)
Definition isspace (c : ascii) : bool :=
  let n := code c in
  between 9 13 n || between 28 32 n || (n =? 133)%N || (n =? 160)%N.

(** [str.lower] on one character: A..Z and the capital letters
    U+00C0..U+00DE (all but the multiplication sign U+00D7). *)
Definition lower_char (c : ascii) : ascii :=
  let n := code c in
  if between 65 90 n || (between 192 222 n && negb (n =? 215)%N)
  then ascii_of_N (n + 32) else c.

Fixpoint lower (s : string) : string :=
  match s with
  | EmptyString => EmptyString
  | String c s' => String (lower_char c) (lower s')
  end.

(** [s.split()]: the maximal runs of characters that are not whitespace,
    left to right.  [cur] is the run being read. *)
Definition flush (cur : string) (rest : list string) : list string :=
  match cur with
  | EmptyString => rest
  | _ => cur :: rest
  end.

Fixpoint split_from (s cur : string) : list string :=
  match s with
  | EmptyString => flush cur []
  | String c s' =>
      if isspace c then flush cur (split_from s' EmptyString)
      else split_from s' (cur +:+ String c EmptyString)
  end.

Definition split (s : string) : list string := split_from s EmptyString.

(** [string.punctuation]; the second character is the double quote. *)
Definition punctuation : string :=
  String "!" (String "034" "#$%&'()*+,-./:;<=>?@[\]^_`{|}~").

Fixpoint contains (c : ascii) (s : string) : bool :=
  match s with
  | EmptyString => false
  | String c' s' => Ascii.eqb c c' || contains c s'
  end.

(** [pattern.sub('', token)] for a pattern that is a character class:
    every character of the class is deleted. *)
Fixpoint sub_class_empty (class token : string) : string :=
  match token with
  | EmptyString => EmptyString
  | String c s' =>
      if contains c class then sub_class_empty class s'
      else String c (sub_class_empty class s')
  end.

(** [l.index(x)]: position of the first element equal to [x], or
    [ValueError].  The message is discarded by every handler of the code;
    the escaping that [repr] applies to [x] is not modelled. *)
Fixpoint index_from (l : list string) (x : string) (i : Z) : result Z :=
  match l with
  | [] => Raise (Exn ValueError ("'" +:+ x +:+ "' is not in list"))
  | y :: l' => if String.eqb y x then Ok i else index_from l' x (i + 1)
  end.

Definition index (l : list string) (x : string) : result Z := index_from l x 0.

(** An element of a corpus: a [str], or an object of another class, which
    has no [split] attribute (a number, [None], a nested array). *)
Inductive elem : Set :=
| EStr (s : string)
| EObj (class_name : string).

Definition elem_split (x : elem) : result (list string) :=
  match x with
  | EStr s => Ok (split s)
  | EObj cls =>
      Raise (Exn AttributeError
               ("'" +:+ cls +:+ "' object has no attribute 'split'"))
  end.

(** A corpus: a list or one-dimensional array, or a zero-dimensional
    array, on which [len] raises. *)
Inductive corpus : Set :=
| Seq (items : list elem)
| Unsized.

Definition corpus_items (c : corpus) : result (list elem) :=
  match c with
  | Seq l => Ok l
  | Unsized => Raise (Exn TypeError "len() of unsized object")
  end.

End Py.

Export Py.

Notation "'let*' x ':=' m 'in' k" := (bind m (fun x => k))
  (at level 10, x name, m at level 100, k at level 200).

(** ** The encoder of [scoring_service.py] (notebook 04) *)

Module ScoringService.

Definition remove_special_characters (token : string) : string :=
  let pattern := punctuation in
  let filtered_token := sub_class_empty pattern token in
  filtered_token.

Section Encoder.
Variable dictonary : list string.
Variable c_map : gmap string string.
Variable unk_word_index : Z.

(** Body of [for resolved_word in resolved_words]. *)
Definition resolve_word (sequence : list Z) (resolved_word : string)
    : result (list Z) :=
  try_except ValueError
    (let* word_index := index dictonary resolved_word in
     Ok (sequence ++ [word_index]))
    (fun _ => Ok (sequence ++ [unk_word_index])).

(** Body of [for word in tokens]. *)
Definition encode_word (sequence : list Z) (word : string)
    : result (list Z) :=
  let word := lower word in
  match c_map !! word with
  | Some phrase =>
      let resolved_words := split phrase in
      for_each resolve_word resolved_words sequence
  | None =>
      try_except ValueError
        (let clean_word := remove_special_characters word in
         if (0 <? String.length clean_word)%nat then
           let* word_index := index dictonary clean_word in
           Ok (sequence ++ [word_index])
         else Ok sequence)
        (fun _ => Ok (sequence ++ [unk_word_index]))
  end.

(** Body of [for i in range(len(corpus))]. *)
Definition encode_claim (sequences : list (list Z)) (claim : elem)
    : result (list (list Z)) :=
  let* tokens := elem_split claim in
  let* sequence := for_each encode_word tokens [] in
  Ok (sequences ++ [sequence]).
End Encoder.

Definition unk_word_index_default : Z := 399999.

Definition convert_to_indices (corpus : corpus) (dictonary : list string)
    (c_map : gmap string string) (unk_word_index : Z)
    : result (list (list Z)) :=
  let* claims := corpus_items corpus in
  for_each (encode_claim dictonary c_map unk_word_index) claims [].

(** *** Library calls made by [run] *)

(** Modelled from the spec: [pad_sequences] is a function of the Keras
    library and its code is not part of the sources.  This is the Fixed-Width
    Formatter of the specification, as both notebooks call it
    ([padding='pre'], [truncating='post'], padding value 0): the first
    [maxlen] entries are kept and written at the end of a row of [maxlen]
    zeros. *)
Definition pad_sequences (sequences : list (list Z)) (maxlen : nat)
    : list (list Z) :=
  map (fun s =>
         let trunc := take maxlen s in
         replicate (maxlen - length trunc) 0 ++ trunc)
      sequences.

Definition show_nat (n : nat) : string := NilZero.string_of_uint (Nat.to_uint n).

Fixpoint rows_of (rows cols : nat) (flat : list Z) : list (list Z) :=
  match rows with
  | O => []
  | S rows' => take cols flat :: rows_of rows' cols (drop cols flat)
  end.

(** [np.reshape(a, (rows, cols))] on a two-dimensional array.  This is a
    function of the numpy library, not part of the sources, modelled from
    its contract: the elements are kept in row-major order and their number
    must not change, otherwise [ValueError] is raised. *)
Definition np_reshape (a : list (list Z)) (shape : nat * nat)
    : result (list (list Z)) :=
  let flat := concat a in
  let '(rows, cols) := shape in
  if (length flat =? rows * cols)%nat then Ok (rows_of rows cols flat)
  else Raise (Exn ValueError
                ("cannot reshape array of size " +:+ show_nat (length flat)
                 +:+ " into shape (" +:+ show_nat rows +:+ ","
                 +:+ show_nat cols +:+ ")")).

Definition is_nan (x : spec_float) : bool :=
  match x with
  | S754_nan => true
  | _ => false
  end.

(** Modelled from the spec: [argmax] is a method of numpy arrays and its
    code is not part of the sources.  The class with the highest score is
    taken, the lowest index among equal scores; as in numpy, a NaN counts
    as the highest score.  [mp] is the highest score so far, at [max_ind];
    [i] is the index of the head of [l]. *)
Fixpoint argmax_from (mp : spec_float) (max_ind i : Z) (l : list spec_float)
    : Z :=
  match l with
  | [] => max_ind
  | x :: l' =>
      if is_nan mp then max_ind
      else if negb (SFleb x mp) then argmax_from x i (i + 1) l'
      else argmax_from mp max_ind (i + 1) l'
  end.

Definition argmax (row : list spec_float) : result Z :=
  match row with
  | [] => Raise (Exn ValueError "attempt to get argmax of an empty sequence")
  | x :: l => Ok (argmax_from x 0 1 l)
  end.

(** [a.argmax(axis=1)]: one index per row. *)
Definition argmax_axis1 (a : list (list spec_float)) : result (list Z) :=
  for_each (fun acc row => let* k := argmax row in Ok (acc ++ [k])) a [].

(** [a.item()]: the only element of an array of size 1. *)
Definition item (a : list Z) : result Z :=
  match a with
  | [k] => Ok k
  | _ => Raise (Exn ValueError
                  "can only convert an array of size 1 to a Python scalar")
  end.

(** *** The service *)

(** The module-level names that [init] assigns, in this order; a name is
    [None] while it is not defined, which is how [init] leaves the names it
    did not reach when it fails.  The session stands for
    [onnx_session.run(None, {name: input_data})[0]]: it maps the input
    array to the array of class scores, or raises.  The entries of the
    input array are the integers of the padded row cast to [float32]; the
    positions of a vocabulary of 400,000 words and the sentinel are exact
    in that type, and the model passes the integers. *)
Record globals : Type := Globals {
  dictonary : option (list string);
  contractions : option (gmap string string);
  onnx_session : option (list (list Z) -> result (list (list spec_float)))
}.

Definition global {A} (name : string) (v : option A) : result A :=
  match v with
  | Some a => Ok a
  | None => Raise (Exn NameError ("name '" +:+ name +:+ "' is not defined"))
  end.

(** What [run] returns: the [int] label or the [str] error text. *)
Inductive response : Set :=
| Label (result : Z)
| Error (error : string).

Section Run.
(** [np.array(json.loads(raw_data))]: the payload parsed and turned into
    an array, or the exception of the parser. *)
Variable load_array : string -> result corpus.
Variable g : globals.

Definition maxSeqLength : nat := 125.

(** The [try] block of [run]; the [print] calls only write to the log
    and are left out. *)
Definition run_try (raw_data : string) : result Z :=
  let* input_data_raw := load_array raw_data in
  let* dictonary := global "dictonary" (dictonary g) in
  let* contractions := global "contractions" (contractions g) in
  let* input_data_indices :=
    convert_to_indices input_data_raw dictonary contractions
      unk_word_index_default in
  let input_data_padded := pad_sequences input_data_indices maxSeqLength in
  let* input_data := np_reshape input_data_padded (1%nat, maxSeqLength) in
  let* session := global "onnx_session" (onnx_session g) in
  let* scores := session input_data in
  let* labels := argmax_axis1 scores in
  let* result := item labels in
  Ok result.

Definition run (raw_data : string) : response :=
  match run_try raw_data with
  | Ok result => Label result
  | Raise e => let error := exn_msg e in Error error
  end.
End Run.

End ScoringService.

(** ** The encoder of the training notebook (notebook 03) *)

Module Training.

Definition remove_special_characters (token : string) : string :=
  let pattern := punctuation in
  let filtered_token := sub_class_empty pattern token in
  filtered_token.

Section Encoder.
Variable dictionary : list string.
Variable c_map : gmap string string.
Variable unk_word_index : Z.

Definition resolve_word (sequence : list Z) (resolved_word : string)
    : result (list Z) :=
  try_except ValueError
    (let* word_index := index dictionary resolved_word in
     Ok (sequence ++ [word_index]))
    (fun _ => Ok (sequence ++ [unk_word_index])).

Definition encode_word (sequence : list Z) (word : string)
    : result (list Z) :=
  let word := lower word in
  match c_map !! word with
  | Some phrase =>
      let resolved_words := split phrase in
      for_each resolve_word resolved_words sequence
  | None =>
      try_except ValueError
        (let clean_word := remove_special_characters word in
         if (0 <? String.length clean_word)%nat then
           let* word_index := index dictionary clean_word in
           Ok (sequence ++ [word_index])
         else Ok sequence)
        (fun _ => Ok (sequence ++ [unk_word_index]))
  end.

Definition encode_claim (sequences : list (list Z)) (claim : elem)
    : result (list (list Z)) :=
  let* tokens := elem_split claim in
  let* sequence := for_each encode_word tokens [] in
  Ok (sequences ++ [sequence]).
End Encoder.

Definition unk_word_index_default : Z := 399999.

Definition convert_to_indices (corpus : corpus) (dictionary : list string)
    (c_map : gmap string string) (unk_word_index : Z)
    : result (list (list Z)) :=
  let* claims := corpus_items corpus in
  for_each (encode_claim dictionary c_map unk_word_index) claims [].

End Training.

(** ** The encoder as a function of the tokens

    The steps of the Sequence Encoder written as plain functions: what one
    token contributes, and the Index Sequence of one claim text. *)

Module EncoderSpec.

(** Exact-match lookup: the position of the first occurrence of [w], or
    the sentinel. *)
Definition word_or_unk (dictonary : list string) (unk : Z) (w : string) : Z :=
  match index dictonary w with
  | Ok k => k
  | Raise _ => unk
  end.

Definition token_indices (dictonary : list string)
    (c_map : gmap string string) (unk : Z) (token : string) : list Z :=
  match c_map !! lower token with
  | Some phrase => map (word_or_unk dictonary unk) (split phrase)
  | None =>
      match ScoringService.remove_special_characters (lower token) with
      | EmptyString => []
      | clean => [word_or_unk dictonary unk clean]
      end
  end.

Definition claim_indices (dictonary : list string)
    (c_map : gmap string string) (unk : Z) (text : string) : list Z :=
  concat (map (token_indices dictonary c_map unk) (split text)).

(** Every character of the token is an ASCII punctuation character. *)
Fixpoint all_punctuation (token : string) : bool :=
  match token with
  | EmptyString => true
  | String c s => contains c punctuation && all_punctuation s
  end.

Definition in_range (dictonary : list string) (k : Z) : Prop :=
  0 <= k < Z.of_nat (length dictonary) \/ k = 399999.

End EncoderSpec.

Import ScoringService EncoderSpec.

(** The token is not in the vocabulary as it is, lowercased, or lowercased
    and stripped of punctuation, and no word of its contraction expansion
    is in the vocabulary either. *)
Definition absent_under_any_transformation (d : list string)
    (c : gmap string string) (token : string) : Prop :=
  (token ∉ d) /\ (lower token ∉ d) /\
  (remove_special_characters (lower token) ∉ d) /\
  forall phrase, c !! lower token = Some phrase ->
                 Forall (fun w => w ∉ d) (split phrase).

(** The exception of a reshape of [size] elements to one row of 125. *)
Definition reshape_error (size : nat) : exn :=
  Exn ValueError
    ("cannot reshape array of size " +:+ show_nat size
     +:+ " into shape (1,125)").

(** The padded rows of a batch of claim texts, as [run] computes them. *)
Definition encoded_rows (d : list string) (c : gmap string string)
    (texts : list string) : list (list Z) :=
  pad_sequences (map (claim_indices d c unk_word_index_default) texts)
    maxSeqLength.

(** ** Example payloads and service state *)

Module Examples.

Definition quote : string := String "034" EmptyString.

(** [json.dumps] of a list of strings that need no escaping. *)
Definition dumps (texts : list string) : string :=
  "[" +:+ String.concat ", " (map (fun t => quote +:+ t +:+ quote) texts)
  +:+ "]".

Definition batch_of_three : list string := ["claim A"; "claim B"; "claim C"].
Definition batch_of_one : list string := ["claim A"].

(** The loader on a few payloads: two batches of texts, the empty batch, a
    bare number, a batch of one number and a text that is not JSON.  The
    examples use no other payload. *)
Definition load_array (raw_data : string) : result corpus :=
  if String.eqb raw_data (dumps batch_of_three)
  then Ok (Seq (map EStr batch_of_three))
  else if String.eqb raw_data (dumps batch_of_one)
  then Ok (Seq (map EStr batch_of_one))
  else if String.eqb raw_data "[]" then Ok (Seq [])
  else if String.eqb raw_data "7" then Ok Unsized
  else if String.eqb raw_data "[7]" then Ok (Seq [EObj "numpy.int64"])
  else if String.eqb raw_data "not json"
  then Raise (Exn ValueError "Expecting value: line 1 column 1 (char 0)")
  else Raise (Exn OtherError "payload outside the examples").

Definition vocabulary : list string := ["the"; "claim"; "a"; "cannot"].
Definition contraction_map : gmap string string := {[ "can't" := "cannot" ]}.

(** 0.25, 0.5 and 0.75 as binary32 numbers. *)
Definition quarter : spec_float := S754_finite false 8388608 (-25).
Definition half : spec_float := S754_finite false 8388608 (-24).
Definition three_quarters : spec_float := S754_finite false 12582912 (-24).

Definition favours_class_1 (input_data : list (list Z))
    : result (list (list spec_float)) :=
  Ok [[quarter; three_quarters]].

Definition undecided (input_data : list (list Z))
    : result (list (list spec_float)) :=
  Ok [[half; half]].

Definition broken (input_data : list (list Z))
    : result (list (list spec_float)) :=
  Raise (Exn OtherError "[ONNXRuntimeError] : 2 : INVALID_ARGUMENT").

Definition ready (session : list (list Z) -> result (list (list spec_float)))
    : globals :=
  Globals (Some vocabulary) (Some contraction_map) (Some session).

End Examples.

(** ** More of the notebooks: [init] and the review cells *)

Module TextShape.


(** Every character of the text is whitespace. *)
Fixpoint all_space (text : string) : bool :=
  match text with
  | EmptyString => true
  | String ch s => isspace ch && all_space s
  end.

Definition nonempty (s : string) : bool :=
  match s with
  | EmptyString => false
  | String _ _ => true
  end.

End TextShape.

(** [init] of [scoring_service.py]. *)
Module ScoringServiceInit.

(** [dict(pairs)]: the pairs are inserted from first to last. *)
Definition dict (pairs : list (string * string)) : gmap string string :=
  fold_left (fun m kv => <[kv.1 := kv.2]> m) pairs ∅.

(** What [init] asks of its surroundings, each call returning or raising:
    [load_words_list] is the download of [wordsList.npy] followed by
    [np.load(..)] and [.tolist()], the list of [bytes] objects of the file;
    [decode] is [word.decode('UTF-8')]; [read_contractions] is
    [pd.read_excel(contractions_url)] with its columns [original] and
    [expanded]; [get_model_path] and [inference_session] are
    [Model.get_model_path] and [onnxruntime.InferenceSession]. *)
Record environment : Type := Environment {
  load_words_list : result (list (list Byte.byte));
  decode : list Byte.byte -> result string;
  read_contractions : result (list string * list string);
  get_model_path : string -> result string;
  inference_session :
    string -> result (list (list Z) -> result (list (list spec_float)))
}.

(** Between [np.load] and the decoding the name [dictonary] is bound to
    the undecoded [bytes] objects.  No [bytes] object is equal to a [str],
    so [index] finds no word among them: for the code that reads the name
    they are a vocabulary without words. *)
Definition undecoded (raw : list (list Byte.byte)) : list string := [].

(** A statement of [init]: it reads and assigns the module-level names and
    returns or raises. *)
Definition action (A : Type) : Type := globals -> globals * result A.

Definition call {A} (r : result A) : action A := fun g => (g, r).

Definition and_then {A B} (m : action A) (k : A -> action B) : action B :=
  fun g =>
    match m g with
    | (g', Ok a) => k a g'
    | (g', Raise e) => (g', Raise e)
    end.

Definition assign_dictonary (v : list string) : action unit :=
  fun g => (Globals (Some v) (contractions g) (onnx_session g), Ok tt).

Definition assign_contractions (v : gmap string string) : action unit :=
  fun g => (Globals (dictonary g) (Some v) (onnx_session g), Ok tt).

Definition assign_onnx_session
    (v : list (list Z) -> result (list (list spec_float))) : action unit :=
  fun g => (Globals (dictonary g) (contractions g) (Some v), Ok tt).

(** [[word.decode('UTF-8') for word in dictonary]] *)
Definition decode_all (env : environment) (raw : list (list Byte.byte))
    : result (list string) :=
  for_each (fun words word => let* w := decode env word in Ok (words ++ [w]))
    raw [].

(** The [try] block of [init]; the [print] calls are left out. *)
Definition init_try (env : environment) : action unit :=
  and_then (call (load_words_list env)) (fun raw =>
  and_then (assign_dictonary (undecoded raw)) (fun _ =>
  and_then (call (decode_all env raw)) (fun words =>
  and_then (assign_dictonary words) (fun _ =>
  and_then (call (read_contractions env)) (fun contractions_df =>
  and_then (assign_contractions
              (dict (zip contractions_df.1 contractions_df.2))) (fun _ =>
  let onnx_model_name := "claim_classifier_onnx" in
  and_then (call (get_model_path env onnx_model_name)) (fun onnx_model_path =>
  and_then (call (inference_session env onnx_model_path)) (fun session =>
  assign_onnx_session session)))))))).

(** [init]: an exception of the [try] block is printed and dropped; the
    names assigned before it stay assigned. *)
Definition init (env : environment) (g : globals) : globals :=
  (init_try env g).1.

(** The module before [init] has run: no name is defined. *)
Definition fresh : globals := Globals None None None.

End ScoringServiceInit.

(** The cells of notebook 03 that review the encoding and the
    predictions. *)
Module Review.


(** [lambda x: 'Auto Insurance Claim' if x == 1 else 'Home Insurance
    Claim'] *)
Definition prediction (x : Z) : string :=
  if x =? 1 then "Auto Insurance Claim" else "Home Insurance Claim".

(** [pred.argmax(axis=1)] followed by the [prediction] column.  The labels
    pass through [np.column_stack] and [astype(int)], which give the same
    integers back. *)
Definition predictions (pred : list (list spec_float))
    : result (list string) :=
  let* pred_label := argmax_axis1 pred in
  Ok (map prediction pred_label).

End Review.

(** More example payloads. *)
Module MoreExamples.

(** A loader given by the table of the payloads it knows. *)
Fixpoint load_table (table : list (string * corpus)) (raw_data : string)
    : result corpus :=
  match table with
  | [] => Raise (Exn OtherError "payload outside the examples")
  | (payload, array) :: table' =>
      if String.eqb raw_data payload then Ok array
      else load_table table' raw_data
  end.

(** A claim of 125 words. *)
Definition long_claim : string := String.concat " " (replicate 125 "claim").

Definition load_long : string -> result corpus :=
  load_table
    [("long", Seq [EStr long_claim]);
     ("longer", Seq [EStr (long_claim +:+ String " " "and the rest")])].

Definition load_short : string -> result corpus :=
  load_table
    [("short", Seq [EStr "a claim"]);
     ("the short", Seq [EStr ("THE" +:+ String " " "a claim")])].

(** The surroundings of [init] in the examples.  The words file holds
    ASCII words, which decode to themselves; the lone byte 0xff does not
    decode. *)
Definition decode_example (word : list Byte.byte) : result string :=
  if forallb (fun b => (Byte.to_N b <? 128)%N) word
  then Ok (string_of_list_byte word)
  else Raise (Exn ValueError
                ("'utf-8' codec can't decode byte 0xff in position 0: "
                 +:+ "invalid start byte")).

Definition words_file : list (list Byte.byte) :=
  map list_byte_of_string ["the"; "claim"; "a"; "cannot"].

Definition environment_with
    (words : list (list Byte.byte))
    (path : string -> result string) : ScoringServiceInit.environment :=
  ScoringServiceInit.Environment
    (Ok words) decode_example
    (Ok (["can't"], ["cannot"]))
    path
    (fun _ => Ok Examples.favours_class_1).

Definition model_registered (name : string) : result string :=
  Ok ("azureml-models/" +:+ name +:+ "/1/model.onnx").

Definition model_missing (name : string) : result string :=
  Raise (Exn OtherError ("Model " +:+ name +:+ " not found in cache"
                         +:+ " or in root directory")).

End MoreExamples.

Import TextShape.

(** ** Lookup in the vocabulary *)

Section Index.
Implicit Types (l : list string) (x : string).

Lemma index_from_ok l x i k :
  index_from l x i = Ok k ->
  exists n : nat,
    k = i + Z.of_nat n /\ l !! n = Some x /\
    forall j : nat, (j < n)%nat -> l !! j <> Some x.
Proof.
  revert i. induction l as [|y l IH]; intros i H; simpl in H; [discriminate|].
  destruct (String.eqb_spec y x) as [->|Hne].
  - injection H as <-. exists 0%nat. split; [lia|]. split; [reflexivity|].
    intros j Hj. lia.
  - apply IH in H as (n & -> & Hn & Hfirst).
    exists (S n). split; [lia|]. split; [exact Hn|].
    intros [|j] Hj; simpl.
    + congruence.
    + apply Hfirst. lia.
Qed.

Lemma index_from_raise l x i e :
  index_from l x i = Raise e -> exn_cls e = ValueError /\ x ∉ l.
Proof.
  revert i. induction l as [|y l IH]; intros i H; simpl in H.
  - injection H as <-. split; [reflexivity|]. apply not_elem_of_nil.
  - destruct (String.eqb_spec y x) as [->|Hne]; [discriminate|].
    apply IH in H as [Hc Hni]. split; [exact Hc|].
    intros Hin. apply elem_of_cons in Hin as [->|Hin]; [congruence|tauto].
Qed.

Lemma index_ok_bounds l x k :
  index l x = Ok k -> 0 <= k < Z.of_nat (length l).
Proof.
  intros H. apply index_from_ok in H as (n & -> & Hn & _).
  apply lookup_lt_Some in Hn. lia.
Qed.

(** In a list without duplicates the position of a word is its index. *)
Lemma index_NoDup l x (n : nat) :
  NoDup l -> l !! n = Some x -> index l x = Ok (Z.of_nat n).
Proof.
  intros Hnd Hn. destruct (index l x) as [k|e] eqn:E.
  - apply index_from_ok in E as (m & -> & Hm & _).
    rewrite (NoDup_lookup l n m x Hnd Hn Hm). reflexivity.
  - apply index_from_raise in E as [_ Hni]. exfalso. apply Hni.
    apply list_elem_of_lookup. eauto.
Qed.

Lemma index_absent l x : x ∉ l -> exists e, index l x = Raise e.
Proof.
  intros Hni. destruct (index l x) as [k|e] eqn:E; [|eauto].
  apply index_from_ok in E as (n & _ & Hn & _). exfalso. apply Hni.
  apply list_elem_of_lookup. eauto.
Qed.

Lemma word_or_unk_range l unk x :
  let k := word_or_unk l unk x in
  0 <= k < Z.of_nat (length l) \/ k = unk.
Proof.
  unfold word_or_unk. destruct (index l x) as [k|e] eqn:E.
  - left. apply index_ok_bounds with x. exact E.
  - right. reflexivity.
Qed.

Lemma word_or_unk_spec l unk x :
  (exists n : nat,
     word_or_unk l unk x = Z.of_nat n /\ l !! n = Some x /\
     forall j : nat, (j < n)%nat -> l !! j <> Some x)
  \/ ((x ∉ l) /\ word_or_unk l unk x = unk).
Proof.
  unfold word_or_unk. destruct (index l x) as [k|e] eqn:E.
  - left. apply index_from_ok in E as (n & -> & Hn & Hfirst).
    exists n. split; [lia|]. split; assumption.
  - right. apply index_from_raise in E as [_ Hni]. split; done.
Qed.

Lemma word_or_unk_absent l unk x : x ∉ l -> word_or_unk l unk x = unk.
Proof.
  intros Hni. unfold word_or_unk.
  destruct (index_absent l x Hni) as [e ->]. reflexivity.
Qed.
End Index.

(** ** The encoder computes [claim_indices] and raises nothing on text *)

Lemma for_each_append {A B} (body : list B -> A -> result (list B))
    (f : A -> list B) :
  (forall s x, body s x = Ok (s ++ f x)) ->
  forall l s, for_each body l s = Ok (s ++ concat (map f l)).
Proof.
  intros Hbody l. induction l as [|x l IH]; intros s; simpl.
  - by rewrite app_nil_r.
  - rewrite Hbody. simpl. rewrite IH. by rewrite app_assoc.
Qed.

Lemma try_index_ok (d : list string) (unk : Z) (seq : list Z) (w : string) :
  try_except ValueError
    (let* word_index := index d w in Ok (seq ++ [word_index]))
    (fun _ => Ok (seq ++ [unk]))
  = Ok (seq ++ [word_or_unk d unk w]).
Proof.
  unfold word_or_unk. destruct (index d w) as [k|e] eqn:E; simpl.
  - reflexivity.
  - apply index_from_raise in E as [-> _]. reflexivity.
Qed.

Section EncoderRefinement.
Variable d : list string.
Variable c : gmap string string.
Variable unk : Z.

Lemma resolve_word_ok seq w :
  resolve_word d unk seq w = Ok (seq ++ [word_or_unk d unk w]).
Proof. apply try_index_ok. Qed.

Lemma for_each_resolve_word ws seq :
  for_each (resolve_word d unk) ws seq
  = Ok (seq ++ map (word_or_unk d unk) ws).
Proof.
  rewrite (for_each_append _ (fun w => [word_or_unk d unk w]));
    [|apply resolve_word_ok].
  do 2 f_equal. induction ws as [|w ws IH]; simpl; congruence.
Qed.

Lemma encode_word_ok seq token :
  encode_word d c unk seq token = Ok (seq ++ token_indices d c unk token).
Proof.
  unfold encode_word, token_indices.
  destruct (c !! lower token) as [phrase|].
  - apply for_each_resolve_word.
  - destruct (remove_special_characters (lower token)) as [|a s] eqn:E.
    + simpl. by rewrite app_nil_r.
    + change (0 <? String.length (String a s))%nat with true.
      cbv iota. apply try_index_ok.
Qed.

Lemma encode_claim_ok seqs text :
  encode_claim d c unk seqs (EStr text)
  = Ok (seqs ++ [claim_indices d c unk text]).
Proof.
  unfold encode_claim, claim_indices. simpl.
  rewrite (for_each_append _ _ encode_word_ok). reflexivity.
Qed.

Lemma for_each_encode_claim texts seqs :
  for_each (encode_claim d c unk) (map EStr texts) seqs
  = Ok (seqs ++ map (claim_indices d c unk) texts).
Proof.
  revert seqs. induction texts as [|t texts IH]; intros seqs; simpl.
  - by rewrite app_nil_r.
  - rewrite encode_claim_ok. simpl. rewrite IH. by rewrite <- app_assoc.
Qed.

Lemma convert_to_indices_texts texts :
  convert_to_indices (Seq (map EStr texts)) d c unk
  = Ok (map (claim_indices d c unk) texts).
Proof. unfold convert_to_indices. simpl. apply for_each_encode_claim. Qed.

Lemma token_indices_range token :
  Forall (fun k => 0 <= k < Z.of_nat (length d) \/ k = unk)
    (token_indices d c unk token).
Proof.
  unfold token_indices. destruct (c !! lower token) as [phrase|].
  - apply Forall_forall. intros k Hk.
    apply list_elem_of_In, in_map_iff in Hk as (w & <- & _).
    apply word_or_unk_range.
  - destruct (remove_special_characters (lower token)); constructor.
    + apply word_or_unk_range.
    + constructor.
Qed.

Lemma claim_indices_range text :
  Forall (fun k => 0 <= k < Z.of_nat (length d) \/ k = unk)
    (claim_indices d c unk text).
Proof.
  unfold claim_indices. apply Forall_concat, Forall_forall.
  intros s Hs. apply list_elem_of_In, in_map_iff in Hs as (t & <- & _).
  apply token_indices_range.
Qed.
End EncoderRefinement.

Lemma for_each_encode_claim_inv d c unk (l : list elem) seqs r :
  for_each (encode_claim d c unk) l seqs = Ok r ->
  exists texts, l = map EStr texts.
Proof.
  revert seqs. induction l as [|x l IH]; intros seqs H.
  - exists []. reflexivity.
  - destruct x as [t|cls]; simpl in H.
    + rewrite encode_claim_ok in H. simpl in H.
      apply IH in H as [texts ->]. exists (t :: texts). reflexivity.
    + discriminate.
Qed.

Lemma convert_to_indices_ok_inv corpus d c unk seqs :
  convert_to_indices corpus d c unk = Ok seqs ->
  exists texts, corpus = Seq (map EStr texts)
                /\ seqs = map (claim_indices d c unk) texts.
Proof.
  intros H. destruct corpus as [l|]; [|discriminate].
  pose proof H as H'. unfold convert_to_indices in H'. simpl in H'.
  apply for_each_encode_claim_inv in H' as [texts ->].
  exists texts. split; [reflexivity|].
  rewrite convert_to_indices_texts in H. congruence.
Qed.

(** ** Punctuation *)

Lemma punctuation_lower_char (ch : ascii) :
  contains ch punctuation = true -> lower_char ch = ch.
Proof.
  destruct ch as [[] [] [] [] [] [] [] []]; vm_compute; congruence.
Qed.

Lemma all_punctuation_lower token :
  all_punctuation token = true -> lower token = token.
Proof.
  induction token as [|ch s IH]; simpl; [reflexivity|].
  intros [Hc Hs]%andb_prop. rewrite (punctuation_lower_char ch Hc).
  f_equal. apply IH. exact Hs.
Qed.

Lemma all_punctuation_removed token :
  all_punctuation token = true ->
  remove_special_characters token = EmptyString.
Proof.
  unfold remove_special_characters.
  induction token as [|ch s IH]; simpl; [reflexivity|].
  intros [Hc Hs]%andb_prop. rewrite Hc. apply IH. exact Hs.
Qed.

Lemma punctuation_token_indices d c unk token :
  all_punctuation token = true -> c !! token = None ->
  token_indices d c unk token = [].
Proof.
  intros Hp Hc. unfold token_indices.
  rewrite (all_punctuation_lower token Hp), Hc.
  by rewrite (all_punctuation_removed token Hp).
Qed.

(** ** Properties of the Sequence Encoder *)

(** C2, as stated, fails: the punctuation-only token "..." is in no
    vocabulary under any transformation, and its Index Sequence is empty,
    not [399999]. *)
Lemma unknown_token_counterexample :
  convert_to_indices (Seq [EStr "..."]) ["the"] ∅ 399999 = Ok [[]] /\
  ~ (split "..." = ["..."] ->
     absent_under_any_transformation ["the"] ∅ "..." ->
     convert_to_indices (Seq [EStr "..."]) ["the"] ∅ 399999
     = Ok [[399999]]).
Proof.
  split; [reflexivity|]. intros H.
  assert (Hts : forall s : string, s <> "the" -> s ∉ ["the"]).
  { intros s Hs Hin. apply list_elem_of_singleton in Hin. contradiction. }
  specialize (H eq_refl). discriminate H.
  repeat split; try (apply Hts; discriminate).
  intros phrase Hp. rewrite lookup_empty in Hp. discriminate.
Qed.

(** C2 (amended): a single token that is not a contraction key and whose
    cleaned form (lowercased, punctuation removed) is not empty and not in
    the vocabulary is encoded as [399999]; a contraction key none of
    whose expansion words is in the vocabulary is encoded as one 399999 per
    expansion word.  No exception is raised in either case. *)
Theorem unknown_token_encoding (d : list string) (c : gmap string string)
    (text token : string) :
  split text = [token] ->
  (c !! lower token = None ->
   remove_special_characters (lower token) <> EmptyString ->
   remove_special_characters (lower token) ∉ d ->
   convert_to_indices (Seq [EStr text]) d c unk_word_index_default
   = Ok [[399999]]) /\
  (forall phrase,
     c !! lower token = Some phrase ->
     Forall (fun w => w ∉ d) (split phrase) ->
     convert_to_indices (Seq [EStr text]) d c unk_word_index_default
     = Ok [replicate (length (split phrase)) 399999]).
Proof.
  intros Hsplit.
  pose proof (convert_to_indices_texts d c unk_word_index_default [text])
    as Hconv.
  simpl in Hconv. unfold claim_indices in Hconv. rewrite Hsplit in Hconv.
  simpl in Hconv. rewrite app_nil_r in Hconv. rewrite Hconv.
  unfold token_indices. split.
  - intros -> Hne Habs.
    destruct (remove_special_characters (lower token)) as [|a s];
      [contradiction|].
    by rewrite word_or_unk_absent.
  - intros phrase -> Habs. do 2 f_equal.
    induction Habs as [|w ws Hw _ IH]; simpl; [reflexivity|].
    rewrite (word_or_unk_absent d _ w Hw), IH. reflexivity.
Qed.

Lemma unknown_token_encoding_witness :
  convert_to_indices (Seq [EStr " Zorb! "]) ["the"; "cannot"]
    {[ "i'm" := "i am" ]} 399999 = Ok [[399999]] /\
  convert_to_indices (Seq [EStr "I'M"]) ["the"; "cannot"]
    {[ "i'm" := "i am" ]} 399999 = Ok [[399999; 399999]].
Proof.
  assert (Hni : forall s : string,
             s <> "the" -> s <> "cannot" -> s ∉ ["the"; "cannot"]).
  { intros s H1 H2 Hin. apply elem_of_cons in Hin as [->|Hin]; [done|].
    apply list_elem_of_singleton in Hin. done. }
  split.
  - apply (proj1 (unknown_token_encoding ["the"; "cannot"]
                    {[ "i'm" := "i am" ]} " Zorb! " "Zorb!" eq_refl)).
    + reflexivity.
    + discriminate.
    + apply Hni; discriminate.
  - apply (proj2 (unknown_token_encoding ["the"; "cannot"]
                    {[ "i'm" := "i am" ]} "I'M" "I'M" eq_refl) "i am").
    + reflexivity.
    + repeat constructor; apply Hni; discriminate.
Defined.

Lemma single_token_indices d c unk text token :
  split text = [token] ->
  convert_to_indices (Seq [EStr text]) d c unk
  = Ok [token_indices d c unk token].
Proof.
  intros Hsplit. change [EStr text] with (map EStr [text]).
  rewrite convert_to_indices_texts.
  cbn [map]. unfold claim_indices. rewrite Hsplit. cbn [map concat].
  by rewrite app_nil_r.
Qed.

Lemma single_token_contraction d c unk text token phrase :
  split text = [token] -> c !! lower token = Some phrase ->
  convert_to_indices (Seq [EStr text]) d c unk
  = Ok [map (word_or_unk d unk) (split phrase)].
Proof.
  intros Hsplit Hc. rewrite (single_token_indices d c unk text token Hsplit).
  unfold token_indices. by rewrite Hc.
Qed.

(** C4: with the entry "can't" -> "cannot" in the Contraction Map and
    "cannot" at index K of a vocabulary of distinct words, the single token
    "Can't" is encoded as [K].  In general a token whose lowercased form is
    a contraction key is replaced by the words of its expansion phrase, each
    looked up by exact match (its first position in the vocabulary) and
    encoded as the sentinel when it is not there. *)
Theorem contraction_expansion (d : list string) (c : gmap string string) :
  (forall K : nat,
     c !! "can't" = Some "cannot" -> NoDup d -> d !! K = Some "cannot" ->
     convert_to_indices (Seq [EStr "Can't"]) d c unk_word_index_default
     = Ok [[Z.of_nat K]]) /\
  (forall unk text token phrase,
     split text = [token] -> c !! lower token = Some phrase ->
     exists seq,
       convert_to_indices (Seq [EStr text]) d c unk = Ok [seq] /\
       Forall2
         (fun w k =>
            (exists n : nat,
               k = Z.of_nat n /\ d !! n = Some w /\
               forall j : nat, (j < n)%nat -> d !! j <> Some w)
            \/ ((w ∉ d) /\ k = unk))
         (split phrase) seq).
Proof.
  split.
  - intros K Hc Hnd HK.
    rewrite (single_token_contraction d c _ "Can't" "Can't" "cannot" eq_refl Hc).
    change (split "cannot") with ["cannot"]. cbn [map].
    unfold word_or_unk. by rewrite (index_NoDup d "cannot" K Hnd HK).
  - intros unk text token phrase Hsplit Hc.
    exists (map (word_or_unk d unk) (split phrase)). split.
    + by apply single_token_contraction with token.
    + apply Forall2_fmap_r, Forall_Forall2_diag, Forall_forall.
      intros w _. apply word_or_unk_spec.
Qed.

Lemma contraction_expansion_witness :
  convert_to_indices (Seq [EStr "Can't"]) ["the"; "cannot"]
    {[ "can't" := "cannot" ]} 399999 = Ok [[1]].
Proof.
  apply (proj1 (contraction_expansion ["the"; "cannot"]
                  {[ "can't" := "cannot" ]}) 1%nat).
  - reflexivity.
  - compute_done.
  - reflexivity.
Defined.

(** C6, as stated, fails when the punctuation-only token is itself a key
    of the Contraction Map: the contraction branch is taken first and the
    token contributes the entries of its expansion. *)
Lemma punctuation_token_counterexample :
  all_punctuation "&" = true /\
  convert_to_indices (Seq [EStr "&"]) ["and"] {[ "&" := "and" ]} 399999
  = Ok [[0]] /\
  convert_to_indices (Seq [EStr "salt & pepper"]) ["and"]
    {[ "&" := "and" ]} 399999
  <> convert_to_indices (Seq [EStr "salt pepper"]) ["and"]
       {[ "&" := "and" ]} 399999.
Proof.
  split; [reflexivity|]. split; [reflexivity|]. vm_compute. discriminate.
Qed.

(** C6 (amended): a token that consists of ASCII punctuation characters
    only and is not a key of the Contraction Map contributes no entry to the
    Index Sequence, neither a vocabulary index nor the sentinel: the
    sequence is the one obtained without that token. *)
Theorem punctuation_token_contributes_nothing (d : list string)
    (c : gmap string string) (unk : Z) (token : string) :
  all_punctuation token = true -> c !! token = None ->
  (forall sequence, encode_word d c unk sequence token = Ok sequence) /\
  (forall text text' before after,
     split text = before ++ token :: after ->
     split text' = before ++ after ->
     convert_to_indices (Seq [EStr text]) d c unk
     = convert_to_indices (Seq [EStr text']) d c unk).
Proof.
  intros Hp Hc.
  pose proof (punctuation_token_indices d c unk token Hp Hc) as Hnone.
  split.
  - intros sequence. rewrite encode_word_ok, Hnone. by rewrite app_nil_r.
  - intros text text' before after Ht Ht'.
    change [EStr text] with (map EStr [text]).
    change [EStr text'] with (map EStr [text']).
    rewrite !convert_to_indices_texts. cbn [map]. unfold claim_indices.
    rewrite Ht, Ht'. rewrite !map_app, !concat_app. cbn [map concat].
    by rewrite Hnone.
Qed.

Lemma punctuation_token_contributes_nothing_witness :
  encode_word ["pole"] {[ "can't" := "cannot" ]} 399999 [7] "..." = Ok [7] /\
  convert_to_indices (Seq [EStr "a ... pole"]) ["pole"]
    {[ "can't" := "cannot" ]} 399999
  = convert_to_indices (Seq [EStr "a pole"]) ["pole"]
      {[ "can't" := "cannot" ]} 399999.
Proof.
  pose proof (punctuation_token_contributes_nothing ["pole"]
                {[ "can't" := "cannot" ]} 399999 "..." eq_refl eq_refl)
    as [Hword Htext].
  split.
  - apply Hword.
  - apply (Htext "a ... pole" "a pole" ["a"] ["pole"]); reflexivity.
Defined.

(** C7: every integer of every Index Sequence that the encoder produces
    with its default sentinel is a position of the vocabulary or the
    constant 399999, whatever the length of the vocabulary; on a corpus of
    claim texts the encoder always produces its sequences, one per text. *)
Theorem index_values_in_range (d : list string) (c : gmap string string) :
  unk_word_index_default = 399999 /\
  (forall texts : list string,
     exists seqs,
       convert_to_indices (Seq (map EStr texts)) d c unk_word_index_default
       = Ok seqs /\ length seqs = length texts) /\
  (forall corpus seqs,
     convert_to_indices corpus d c unk_word_index_default = Ok seqs ->
     Forall (Forall (in_range d)) seqs).
Proof.
  split; [reflexivity|]. split.
  - intros texts. eexists. split; [apply convert_to_indices_texts|].
    by rewrite length_map.
  - intros corpus seqs H.
    apply convert_to_indices_ok_inv in H as (texts & _ & ->).
    apply Forall_forall. intros s Hs.
    apply list_elem_of_In, in_map_iff in Hs as (t & <- & _).
    apply claim_indices_range.
Qed.

Lemma index_values_in_range_witness :
  Forall (Forall (in_range ["pole"; "cannot"])) [[399999; 0]; [1]].
Proof.
  apply (proj2 (proj2 (index_values_in_range ["pole"; "cannot"]
                         {[ "can't" := "cannot" ]}))
           (Seq [EStr "A pole."; EStr "CAN'T"])).
  reflexivity.
Defined.

(** ** The Fixed-Width Formatter *)

Lemma pad_sequences_shape (seqs : list (list Z)) (maxlen : nat) :
  length (pad_sequences seqs maxlen) = length seqs /\
  Forall (fun row => length row = maxlen) (pad_sequences seqs maxlen).
Proof.
  unfold pad_sequences. split; [apply length_map|].
  apply Forall_forall. intros row Hrow.
  apply list_elem_of_In, in_map_iff in Hrow as (s & <- & _).
  rewrite length_app, length_replicate, length_take. lia.
Qed.

(** C3: the row that the formatter produces for an Index Sequence has
    length exactly 125; a sequence of length n < 125 gives 125 - n zeros
    followed by the sequence, a sequence of length n >= 125 gives its first
    125 values. *)
Theorem fixed_width_row (s : list Z) :
  exists row,
    pad_sequences [s] maxSeqLength = [row] /\
    length row = 125%nat /\
    ((length s < 125)%nat -> row = replicate (125 - length s) 0 ++ s) /\
    ((125 <= length s)%nat -> row = take 125 s).
Proof.
  eexists. split; [reflexivity|]. unfold maxSeqLength. split; [|split].
  - rewrite length_app, length_replicate, length_take. lia.
  - intros Hlt. rewrite take_ge by lia. reflexivity.
  - intros Hge. rewrite length_take_le by lia.
    rewrite Nat.sub_diag. reflexivity.
Qed.

Lemma fixed_width_row_witness :
  pad_sequences [[41; 399999; 7]] maxSeqLength
  = [replicate 122 0 ++ [41; 399999; 7]] /\
  pad_sequences [seqZ 1 130] maxSeqLength = [seqZ 1 125].
Proof.
  split.
  - destruct (fixed_width_row [41; 399999; 7]) as (row & -> & _ & Hshort & _).
    f_equal. apply Hshort. vm_compute. lia.
  - destruct (fixed_width_row (seqZ 1 130)) as (row & -> & _ & _ & Hlong).
    f_equal. rewrite Hlong; [reflexivity|]. vm_compute. lia.
Defined.

(** ** Reshaping to one row *)

Lemma length_concat_rows (a : list (list Z)) (m : nat) :
  Forall (fun row => length row = m) a ->
  length (concat a) = (length a * m)%nat.
Proof.
  induction 1 as [|row a Hrow _ IH]; simpl; [reflexivity|].
  rewrite length_app, IH, Hrow. reflexivity.
Qed.

Lemma np_reshape_not_one_row (a : list (list Z)) :
  Forall (fun row => length row = 125%nat) a -> length a <> 1%nat ->
  np_reshape a (1%nat, maxSeqLength) = Raise (reshape_error (length a * 125)).
Proof.
  intros Hrows Hn. unfold np_reshape.
  rewrite (length_concat_rows a 125 Hrows).
  destruct (Nat.eqb_spec (length a * 125) (1 * maxSeqLength)) as [E|_].
  - unfold maxSeqLength in E. lia.
  - reflexivity.
Qed.

Lemma np_reshape_one_row (row : list Z) :
  length row = 125%nat ->
  np_reshape [row] (1%nat, maxSeqLength) = Ok [row].
Proof.
  intros Hrow. unfold np_reshape. cbn [concat]. rewrite app_nil_r, Hrow.
  change (125 =? 1 * maxSeqLength)%nat with true. cbv iota.
  unfold rows_of, maxSeqLength. rewrite take_ge by lia. reflexivity.
Qed.

(** ** The argmax of two scores *)

Lemma SFcompare_Eq_sym (a b : spec_float) :
  SFcompare a b = Some Eq -> SFcompare b a = Some Eq.
Proof.
  destruct a as [sa|sa| |sa ma ea], b as [sb|sb| |sb mb eb]; simpl;
    try destruct sa; try destruct sb; try congruence.
  - destruct (Z.compare_spec ea eb) as [->| |]; try discriminate.
    rewrite Z.compare_refl, !Pos.compare_cont_spec. simpl.
    destruct (Pos.compare_spec ma mb) as [->| |]; try discriminate.
    by rewrite Pos.compare_refl.
  - destruct (Z.compare_spec ea eb) as [->| |]; try discriminate.
    rewrite Z.compare_refl, !Pos.compare_cont_spec. simpl.
    destruct (Pos.compare_spec ma mb) as [->| |]; try discriminate.
    by rewrite Pos.compare_refl.
Qed.

Lemma SFcompare_refl (a : spec_float) :
  is_nan a = false -> SFcompare a a = Some Eq.
Proof.
  destruct a as [s|s| |s m e]; simpl; try destruct s; try congruence;
    intros _; rewrite Z.compare_refl, Pos.compare_cont_spec,
                Pos.compare_refl; reflexivity.
Qed.

Lemma argmax_tie (a b : spec_float) :
  a = b \/ SFeqb a b = true -> argmax [a; b] = Ok 0.
Proof.
  intros Htie. unfold argmax, argmax_from.
  destruct (is_nan a) eqn:Hnan; [reflexivity|].
  assert (Hcmp : SFcompare b a = Some Eq).
  { destruct Htie as [<-|Heq]; [by apply SFcompare_refl|].
    apply SFcompare_Eq_sym. unfold SFeqb in Heq.
    destruct (SFcompare a b) as [[]|]; congruence. }
  unfold SFleb. rewrite Hcmp. reflexivity.
Qed.

(** ** The scoring entry point *)

Section RunLemmas.
Variable load_array : string -> result corpus.
Variable g : globals.

(** [run] returns the text of whatever the [try] block raises. *)
Lemma run_raise raw_data e :
  run_try load_array g raw_data = Raise e ->
  run load_array g raw_data = Error (exn_msg e).
Proof. unfold run. by intros ->. Qed.

Lemma run_ok raw_data k :
  run_try load_array g raw_data = Ok k ->
  run load_array g raw_data = Label k.
Proof. unfold run. by intros ->. Qed.

Lemma encoded_rows_shape d c texts :
  length (encoded_rows d c texts) = length texts /\
  Forall (fun row => length row = 125%nat) (encoded_rows d c texts).
Proof.
  unfold encoded_rows.
  destruct (pad_sequences_shape
              (map (claim_indices d c unk_word_index_default) texts)
              maxSeqLength) as [Hlen Hrows].
  rewrite length_map in Hlen. split; assumption.
Qed.

(** On a batch of texts, with the vocabulary and the contraction map
    loaded, [run] reaches the reshape with one padded row per text. *)
Lemma run_try_texts raw_data texts d c :
  load_array raw_data = Ok (Seq (map EStr texts)) ->
  dictonary g = Some d -> contractions g = Some c ->
  run_try load_array g raw_data
  = (let* input_data :=
       np_reshape (encoded_rows d c texts) (1%nat, maxSeqLength) in
     let* session := global "onnx_session" (onnx_session g) in
     let* scores := session input_data in
     let* labels := argmax_axis1 scores in
     let* result := item labels in
     Ok result).
Proof.
  intros Hload Hd Hc. unfold run_try. rewrite Hload, Hd, Hc. cbn [bind global].
  rewrite convert_to_indices_texts. reflexivity.
Qed.

Lemma run_try_batch_not_one raw_data texts d c :
  load_array raw_data = Ok (Seq (map EStr texts)) ->
  dictonary g = Some d -> contractions g = Some c ->
  length texts <> 1%nat ->
  run_try load_array g raw_data
  = Raise (reshape_error (length texts * 125)).
Proof.
  intros Hload Hd Hc Hn. rewrite (run_try_texts _ texts d c Hload Hd Hc).
  destruct (encoded_rows_shape d c texts) as [Hlen Hrows].
  rewrite np_reshape_not_one_row; [|exact Hrows|by rewrite Hlen].
  by rewrite Hlen.
Qed.

(** Whatever was loaded by [init], a batch whose size is not 1 makes the
    [try] block raise. *)
Lemma run_batch_not_one_error raw_data texts :
  load_array raw_data = Ok (Seq (map EStr texts)) ->
  length texts <> 1%nat ->
  exists e, run_try load_array g raw_data = Raise e.
Proof.
  intros Hload Hn.
  destruct (dictonary g) as [d|] eqn:Hd;
    [destruct (contractions g) as [c|] eqn:Hc|].
  - eexists. by apply run_try_batch_not_one with d c.
  - eexists. unfold run_try. rewrite Hload, Hd, Hc. reflexivity.
  - eexists. unfold run_try. rewrite Hload, Hd. reflexivity.
Qed.

Lemma run_try_single raw_data text d c session :
  load_array raw_data = Ok (Seq [EStr text]) ->
  dictonary g = Some d -> contractions g = Some c ->
  onnx_session g = Some session ->
  run_try load_array g raw_data
  = (let* scores := session (encoded_rows d c [text]) in
     let* labels := argmax_axis1 scores in
     let* result := item labels in
     Ok result).
Proof.
  intros Hload Hd Hc Hs.
  rewrite (run_try_texts _ [text] d c Hload Hd Hc).
  destruct (encoded_rows_shape d c [text]) as [_ Hrows].
  unfold encoded_rows in *. cbn [map pad_sequences] in *.
  apply Forall_inv in Hrows.
  rewrite np_reshape_one_row by exact Hrows. rewrite Hs. reflexivity.
Qed.
End RunLemmas.

(** ** Properties of [run] *)

(** C1, as stated, fails: the batch of three claims gets no label at all,
    while its first claim alone gets one. *)
Lemma batch_of_three_counterexample :
  run Examples.load_array (Examples.ready Examples.favours_class_1)
    (Examples.dumps ["claim A"; "claim B"; "claim C"])
  = Error "cannot reshape array of size 375 into shape (1,125)" /\
  run Examples.load_array (Examples.ready Examples.favours_class_1)
    (Examples.dumps ["claim A"])
  = Label 1.
Proof. split; vm_compute; reflexivity. Qed.

(** C1 (amended): for a payload that parses as a batch of two or more
    claim texts [run] returns an error text and no label (with vocabulary
    and contraction map loaded, the text of the failed reshape); a batch of
    exactly one claim text is the one that is scored, from the scores that
    the engine gives for the padded row of that claim. *)
Theorem score_serves_single_claim_only
    (load_array : string -> result corpus) (g : globals) (raw_data : string) :
  (forall a b rest,
     load_array raw_data = Ok (Seq (map EStr (a :: b :: rest))) ->
     exists msg,
       run load_array g raw_data = Error msg /\
       (forall d c, dictonary g = Some d -> contractions g = Some c ->
          msg = exn_msg (reshape_error ((2 + length rest) * 125)))) /\
  (forall a d c session,
     load_array raw_data = Ok (Seq [EStr a]) ->
     dictonary g = Some d -> contractions g = Some c ->
     onnx_session g = Some session ->
     run load_array g raw_data
     = match (let* scores := session (encoded_rows d c [a]) in
              let* labels := argmax_axis1 scores in
              let* result := item labels in
              Ok result) with
       | Ok result => Label result
       | Raise e => Error (exn_msg e)
       end).
Proof.
  split.
  - intros a b rest Hload.
    destruct (run_batch_not_one_error load_array g raw_data _ Hload)
      as [e He]; [simpl; lia|].
    exists (exn_msg e). split; [by apply run_raise|].
    intros d c Hd Hc.
    rewrite (run_try_batch_not_one load_array g raw_data _ d c Hload Hd Hc)
      in He by (simpl; lia).
    injection He as <-. reflexivity.
  - intros a d c session Hload Hd Hc Hs. unfold run.
    by rewrite (run_try_single load_array g raw_data a d c session).
Qed.

Lemma score_serves_single_claim_only_witness :
  (exists msg,
     run Examples.load_array (Examples.ready Examples.favours_class_1)
       (Examples.dumps Examples.batch_of_three) = Error msg) /\
  run Examples.load_array (Examples.ready Examples.favours_class_1)
    (Examples.dumps Examples.batch_of_one) = Label 1.
Proof.
  split.
  - destruct (proj1 (score_serves_single_claim_only Examples.load_array
                       (Examples.ready Examples.favours_class_1)
                       (Examples.dumps Examples.batch_of_three))
                "claim A" "claim B" ["claim C"] eq_refl) as (msg & Hmsg & _).
    exists msg. exact Hmsg.
  - rewrite (proj2 (score_serves_single_claim_only Examples.load_array
                      (Examples.ready Examples.favours_class_1)
                      (Examples.dumps Examples.batch_of_one))
               "claim A" Examples.vocabulary Examples.contraction_map
               Examples.favours_class_1 eq_refl eq_refl eq_refl eq_refl).
    reflexivity.
Defined.

(** C5: [run] raises nothing: it returns the label when its [try] block
    completes and otherwise the text of the exception.  A payload that does
    not parse, module state that [init] did not load, an encoding that
    fails and an engine that fails all end in an error text. *)
Theorem run_never_raises
    (load_array : string -> result corpus) (g : globals) (raw_data : string) :
  ((exists k, run_try load_array g raw_data = Ok k /\
              run load_array g raw_data = Label k) \/
   (exists e, run_try load_array g raw_data = Raise e /\
              run load_array g raw_data = Error (exn_msg e))) /\
  (forall e, load_array raw_data = Raise e ->
             run load_array g raw_data = Error (exn_msg e)) /\
  (forall corpus, load_array raw_data = Ok corpus -> dictonary g = None ->
                  run load_array g raw_data
                  = Error "name 'dictonary' is not defined") /\
  (forall corpus d c e,
     load_array raw_data = Ok corpus ->
     dictonary g = Some d -> contractions g = Some c ->
     convert_to_indices corpus d c unk_word_index_default = Raise e ->
     run load_array g raw_data = Error (exn_msg e)) /\
  (forall text d c session e,
     load_array raw_data = Ok (Seq [EStr text]) ->
     dictonary g = Some d -> contractions g = Some c ->
     onnx_session g = Some session ->
     session (encoded_rows d c [text]) = Raise e ->
     run load_array g raw_data = Error (exn_msg e)).
Proof.
  split; [|split; [|split; [|split]]].
  - destruct (run_try load_array g raw_data) as [k|e] eqn:E.
    + left. exists k. split; [reflexivity|]. by apply run_ok.
    + right. exists e. split; [reflexivity|]. by apply run_raise.
  - intros e Hload. apply run_raise. unfold run_try. by rewrite Hload.
  - intros corpus Hload Hd. unfold run, run_try. by rewrite Hload, Hd.
  - intros corpus d c e Hload Hd Hc Hconv. apply run_raise.
    unfold run_try. rewrite Hload, Hd, Hc. cbn [bind global].
    by rewrite Hconv.
  - intros text d c session e Hload Hd Hc Hs Hfail. apply run_raise.
    rewrite (run_try_single load_array g raw_data text d c session)
      by assumption.
    by rewrite Hfail.
Qed.

Lemma run_never_raises_witness :
  run Examples.load_array (Examples.ready Examples.broken) "not json"
  = Error "Expecting value: line 1 column 1 (char 0)" /\
  run Examples.load_array (Globals None None None) "[]"
  = Error "name 'dictonary' is not defined" /\
  run Examples.load_array (Examples.ready Examples.broken) "[7]"
  = Error "'numpy.int64' object has no attribute 'split'" /\
  run Examples.load_array (Examples.ready Examples.broken)
    (Examples.dumps Examples.batch_of_one)
  = Error "[ONNXRuntimeError] : 2 : INVALID_ARGUMENT".
Proof.
  split; [|split; [|split]].
  - apply (proj1 (proj2 (run_never_raises Examples.load_array
                           (Examples.ready Examples.broken) "not json"))
             (Exn ValueError "Expecting value: line 1 column 1 (char 0)")).
    reflexivity.
  - apply (proj1 (proj2 (proj2 (run_never_raises Examples.load_array
                                  (Globals None None None) "[]")))
             (Seq [])); reflexivity.
  - apply (proj1 (proj2 (proj2 (proj2
             (run_never_raises Examples.load_array
                (Examples.ready Examples.broken) "[7]"))))
             (Seq [EObj "numpy.int64"]) Examples.vocabulary
             Examples.contraction_map
             (Exn AttributeError
                "'numpy.int64' object has no attribute 'split'"));
      reflexivity.
  - apply (proj2 (proj2 (proj2 (proj2
             (run_never_raises Examples.load_array
                (Examples.ready Examples.broken)
                (Examples.dumps Examples.batch_of_one)))))
             "claim A" Examples.vocabulary Examples.contraction_map
             Examples.broken
             (Exn OtherError "[ONNXRuntimeError] : 2 : INVALID_ARGUMENT"));
      reflexivity.
Defined.

(** C8: when the engine returns two class scores that are equal, [run]
    returns the label 0, the lowest class index. *)
Theorem argmax_tie_returns_label_0
    (load_array : string -> result corpus) (g : globals) (raw_data : string)
    (text : string) (d : list string) (c : gmap string string)
    (session : list (list Z) -> result (list (list spec_float)))
    (a b : spec_float) :
  load_array raw_data = Ok (Seq [EStr text]) ->
  dictonary g = Some d -> contractions g = Some c ->
  onnx_session g = Some session ->
  session (encoded_rows d c [text]) = Ok [[a; b]] ->
  a = b \/ SFeqb a b = true ->
  run load_array g raw_data = Label 0.
Proof.
  intros Hload Hd Hc Hs Hscores Htie. apply run_ok.
  rewrite (run_try_single load_array g raw_data text d c session)
    by assumption.
  rewrite Hscores. cbn [bind argmax_axis1 for_each].
  by rewrite (argmax_tie a b Htie).
Qed.

Lemma argmax_tie_returns_label_0_witness :
  run Examples.load_array (Examples.ready Examples.undecided)
    (Examples.dumps Examples.batch_of_one) = Label 0.
Proof.
  apply (argmax_tie_returns_label_0 Examples.load_array
           (Examples.ready Examples.undecided)
           (Examples.dumps Examples.batch_of_one)
           "claim A" Examples.vocabulary Examples.contraction_map
           Examples.undecided Examples.half Examples.half);
    try reflexivity.
  right. reflexivity.
Defined.

(** C9: for a payload that parses as a batch of n claim texts with n other
    than 1, [run] returns an error text and no label.  With the vocabulary
    and the contraction map loaded, all n claims are encoded and padded
    into n rows of length 125, the reshape to (1, 125) raises, and the text
    of that exception is what [run] returns. *)
Theorem batch_size_not_one_returns_error
    (load_array : string -> result corpus) (g : globals) (raw_data : string)
    (texts : list string) :
  load_array raw_data = Ok (Seq (map EStr texts)) ->
  length texts <> 1%nat ->
  (exists msg, run load_array g raw_data = Error msg) /\
  (forall d c,
     dictonary g = Some d -> contractions g = Some c ->
     exists seqs padded e,
       convert_to_indices (Seq (map EStr texts)) d c unk_word_index_default
       = Ok seqs /\
       padded = pad_sequences seqs maxSeqLength /\
       length padded = length texts /\
       Forall (fun row => length row = 125%nat) padded /\
       np_reshape padded (1%nat, maxSeqLength) = Raise e /\
       exn_msg e
       = "cannot reshape array of size " +:+ show_nat (length texts * 125)
         +:+ " into shape (1,125)" /\
       run load_array g raw_data = Error (exn_msg e)).
Proof.
  intros Hload Hn. split.
  - destruct (run_batch_not_one_error load_array g raw_data texts Hload Hn)
      as [e He].
    exists (exn_msg e). by apply run_raise.
  - intros d c Hd Hc.
    destruct (encoded_rows_shape d c texts) as [Hlen Hrows].
    exists (map (claim_indices d c unk_word_index_default) texts),
      (encoded_rows d c texts), (reshape_error (length texts * 125)).
    split; [apply convert_to_indices_texts|].
    split; [reflexivity|]. split; [exact Hlen|]. split; [exact Hrows|].
    split; [|split; [reflexivity|]].
    + rewrite np_reshape_not_one_row; [|exact Hrows|]; by rewrite Hlen.
    + apply run_raise. by apply run_try_batch_not_one with d c.
Qed.

Lemma batch_size_not_one_returns_error_witness :
  (exists msg,
     run Examples.load_array (Globals None None None) "[]" = Error msg) /\
  run Examples.load_array (Examples.ready Examples.favours_class_1)
    (Examples.dumps Examples.batch_of_three)
  = Error "cannot reshape array of size 375 into shape (1,125)".
Proof.
  split.
  - apply (proj1 (batch_size_not_one_returns_error Examples.load_array
                    (Globals None None None) "[]" []
                    eq_refl ltac:(simpl; lia))).
  - destruct (proj2 (batch_size_not_one_returns_error Examples.load_array
                       (Examples.ready Examples.favours_class_1)
                       (Examples.dumps Examples.batch_of_three)
                       Examples.batch_of_three eq_refl ltac:(simpl; lia))
                Examples.vocabulary Examples.contraction_map
                eq_refl eq_refl)
      as (seqs & padded & e & _ & _ & _ & _ & _ & Hmsg & Hrun).
    rewrite Hrun, Hmsg. reflexivity.
Defined.

(** ** Training and serving encode alike *)

(** C10: the encoder of the training notebook and the encoder of the
    scoring service are the same function, helper by helper: for every
    corpus, vocabulary, contraction map and sentinel they return the same
    result. *)
Theorem training_and_serving_encoders_agree :
  (forall token,
     Training.remove_special_characters token
     = ScoringService.remove_special_characters token) /\
  Training.unk_word_index_default = ScoringService.unk_word_index_default /\
  (forall corpus dictionary c_map unk_word_index,
     Training.convert_to_indices corpus dictionary c_map unk_word_index
     = ScoringService.convert_to_indices corpus dictionary c_map
         unk_word_index).
Proof.
  split; [|split].
  - intros token. reflexivity.
  - reflexivity.
  - intros corpus dictionary c_map unk_word_index.
    unfold Training.convert_to_indices, ScoringService.convert_to_indices.
    destruct (corpus_items corpus) as [claims|e]; [|reflexivity].
    cbn [bind]. generalize (@nil (list Z)) as sequences.
    induction claims as [|claim claims IH]; intros sequences;
      [reflexivity|].
    cbn [for_each].
    assert (Hclaim : Training.encode_claim dictionary c_map unk_word_index
                       sequences claim
                     = ScoringService.encode_claim dictionary c_map
                         unk_word_index sequences claim) by reflexivity.
    rewrite Hclaim.
    destruct (ScoringService.encode_claim _ _ _ sequences claim);
      [apply IH|reflexivity].
Qed.

(** ** Characters and strings *)

Lemma isspace_lower_char (ch : ascii) : isspace (lower_char ch) = isspace ch.
Proof. destruct ch as [[] [] [] [] [] [] [] []]; reflexivity. Qed.

Lemma lower_char_idempotent (ch : ascii) :
  lower_char (lower_char ch) = lower_char ch.
Proof. destruct ch as [[] [] [] [] [] [] [] []]; reflexivity. Qed.



Lemma string_app_cons (ch : ascii) (a b : string) :
  String ch a +:+ b = String ch (a +:+ b).
Proof. reflexivity. Qed.

Lemma string_app_nil_l (b : string) : EmptyString +:+ b = b.
Proof. reflexivity. Qed.

Lemma lower_app (a b : string) : lower (a +:+ b) = lower a +:+ lower b.
Proof.
  induction a as [|ch a IH]; [reflexivity|].
  rewrite string_app_cons. simpl. rewrite string_app_cons. by rewrite IH.
Qed.

Lemma lower_idempotent (s : string) : lower (lower s) = lower s.
Proof.
  induction s as [|ch s IH]; simpl; [reflexivity|].
  by rewrite lower_char_idempotent, IH.
Qed.



Lemma string_app_assoc (a b c : string) : (a +:+ b) +:+ c = a +:+ (b +:+ c).
Proof.
  induction a as [|ch a IH]; [reflexivity|].
  rewrite !string_app_cons. by rewrite IH.
Qed.






(** ** The normalizer *)




(** ** Tokens *)

Lemma flush_app (cur : string) (l : list string) : flush cur [] ++ l = flush cur l.
Proof. by destruct cur. Qed.

Lemma flush_lower (cur : string) (l : list string) :
  flush (lower cur) (map lower l) = map lower (flush cur l).
Proof. by destruct cur. Qed.

Lemma split_from_cons (ch : ascii) (s cur : string) :
  split_from (String ch s) cur
  = if isspace ch then flush cur (split_from s EmptyString)
    else split_from s (cur +:+ String ch EmptyString).
Proof. reflexivity. Qed.

Lemma split_from_lower (s cur : string) :
  split_from (lower s) (lower cur) = map lower (split_from s cur).
Proof.
  revert cur. induction s as [|ch s IH]; intros cur.
  - apply (flush_lower cur []).
  - cbn [lower]. rewrite !split_from_cons, isspace_lower_char.
    destruct (isspace ch).
    + rewrite <- flush_lower. f_equal. apply (IH EmptyString).
    + rewrite <- IH. f_equal. by rewrite lower_app.
Qed.

Lemma split_lower (s : string) : split (lower s) = map lower (split s).
Proof. apply (split_from_lower s EmptyString). Qed.

Lemma split_from_separator (ws : ascii) (a b cur : string) :
  isspace ws = true ->
  split_from (a +:+ String ws b) cur = split_from a cur ++ split b.
Proof.
  intros Hws. revert cur. induction a as [|ch a IH]; intros cur.
  - rewrite string_app_nil_l, split_from_cons, Hws. cbn [split_from].
    by rewrite flush_app.
  - rewrite string_app_cons, !split_from_cons. destruct (isspace ch).
    + rewrite IH. by destruct cur.
    + apply IH.
Qed.

Lemma split_separator (ws : ascii) (a b : string) :
  isspace ws = true -> split (a +:+ String ws b) = split a ++ split b.
Proof. intros Hws. by apply split_from_separator. Qed.

Lemma split_all_space (s : string) : all_space s = true -> split s = [].
Proof.
  unfold split. induction s as [|ch s IH]; [reflexivity|].
  cbn [all_space]. intros [Hc Hs]%andb_prop.
  rewrite split_from_cons, Hc. cbn [flush]. by apply IH.
Qed.




(** ** More on the encoder *)

Lemma index_first (d : list string) (w : string) (n : nat) :
  d !! n = Some w -> (forall j : nat, (j < n)%nat -> d !! j <> Some w) ->
  index d w = Ok (Z.of_nat n).
Proof.
  intros Hn Hfirst. destruct (index d w) as [k|e] eqn:E.
  - apply index_from_ok in E as (m & -> & Hm & Hmfirst).
    destruct (Nat.lt_trichotomy m n) as [Hlt|[->|Hgt]].
    + exfalso. by apply (Hfirst m).
    + reflexivity.
    + exfalso. by apply (Hmfirst n).
  - apply index_from_raise in E as [_ Hni]. exfalso. apply Hni.
    apply list_elem_of_lookup. eauto.
Qed.

Lemma token_indices_no_contraction d c unk token :
  c !! lower token = None ->
  token_indices d c unk token
  = if nonempty (remove_special_characters (lower token))
    then [word_or_unk d unk (remove_special_characters (lower token))]
    else [].
Proof.
  intros Hc. unfold token_indices. rewrite Hc.
  by destruct (remove_special_characters (lower token)).
Qed.

Lemma token_indices_lower d c unk token :
  token_indices d c unk (lower token) = token_indices d c unk token.
Proof. unfold token_indices. by rewrite lower_idempotent. Qed.

Lemma claim_indices_lower d c unk text :
  claim_indices d c unk (lower text) = claim_indices d c unk text.
Proof.
  unfold claim_indices. rewrite split_lower, map_map. f_equal.
  apply map_ext. intros token. apply token_indices_lower.
Qed.

Lemma claim_indices_separator d c unk (ws : ascii) (a b : string) :
  isspace ws = true ->
  claim_indices d c unk (a +:+ String ws b)
  = claim_indices d c unk a ++ claim_indices d c unk b.
Proof.
  intros Hws. unfold claim_indices.
  by rewrite (split_separator ws a b Hws), map_app, concat_app.
Qed.

Lemma single_claim_indices d c unk text :
  convert_to_indices (Seq [EStr text]) d c unk
  = Ok [claim_indices d c unk text].
Proof.
  change [EStr text] with (map EStr [text]).
  by rewrite convert_to_indices_texts.
Qed.

Lemma for_each_app {A S} (body : S -> A -> result S) (l1 l2 : list A) (s : S) :
  for_each body (l1 ++ l2) s
  = (let* s' := for_each body l1 s in for_each body l2 s').
Proof.
  revert s. induction l1 as [|x l1 IH]; intros s; [reflexivity|].
  cbn [app for_each]. destruct (body s x) as [s'|e]; [apply IH|reflexivity].
Qed.

(** X3: the encoding does not depend on the case of the letters: a corpus
    and the same corpus lowercased get the same Index Sequences. *)
Theorem encoding_ignores_case (d : list string) (c : gmap string string)
    (unk : Z) (texts : list string) :
  convert_to_indices (Seq (map EStr (map lower texts))) d c unk
  = convert_to_indices (Seq (map EStr texts)) d c unk.
Proof.
  rewrite !convert_to_indices_texts, map_map. f_equal.
  apply map_ext. intros text. apply claim_indices_lower.
Qed.

(** X4: a single token that is not a contraction key and whose cleaned
    form is a vocabulary word is encoded as the first position of that
    word. *)
Theorem known_token_encoding (d : list string) (c : gmap string string)
    (unk : Z) (text token : string) (n : nat) :
  split text = [token] ->
  c !! lower token = None ->
  remove_special_characters (lower token) <> EmptyString ->
  d !! n = Some (remove_special_characters (lower token)) ->
  (forall j : nat, (j < n)%nat ->
     d !! j <> Some (remove_special_characters (lower token))) ->
  convert_to_indices (Seq [EStr text]) d c unk = Ok [[Z.of_nat n]].
Proof.
  intros Hsplit Hc Hne Hn Hfirst.
  rewrite (single_token_indices d c unk text token Hsplit).
  rewrite (token_indices_no_contraction d c unk token Hc).
  unfold word_or_unk. rewrite (index_first d _ n Hn Hfirst).
  by destruct (remove_special_characters (lower token)).
Qed.

Lemma known_token_encoding_witness :
  convert_to_indices (Seq [EStr " Pole. "]) ["a"; "pole"; "pole"] ∅ 399999
  = Ok [[1]].
Proof.
  apply (known_token_encoding ["a"; "pole"; "pole"] ∅ 399999 " Pole. "
           "Pole." 1%nat).
  - reflexivity.
  - reflexivity.
  - discriminate.
  - reflexivity.
  - intros [|j] Hj; [discriminate|lia].
Defined.

(** X5: the claims of a corpus are encoded independently of each other:
    the i-th Index Sequence is the one that the i-th claim text gets when it
    is encoded alone. *)
Theorem corpus_claims_encoded_independently (d : list string)
    (c : gmap string string) (unk : Z) (texts : list string) :
  exists seqs,
    convert_to_indices (Seq (map EStr texts)) d c unk = Ok seqs /\
    Forall2 (fun text s => convert_to_indices (Seq [EStr text]) d c unk = Ok [s])
      texts seqs.
Proof.
  exists (map (claim_indices d c unk) texts).
  split; [apply convert_to_indices_texts|].
  apply Forall2_fmap_r, Forall_Forall2_diag, Forall_forall.
  intros text _. apply single_claim_indices.
Qed.


(** X7: joining two claim texts with a whitespace character concatenates
    their Index Sequences, in that order. *)
Theorem whitespace_joins_index_sequences (d : list string)
    (c : gmap string string) (unk : Z) (ws : ascii) (a b : string) :
  isspace ws = true ->
  exists sa sb,
    convert_to_indices (Seq [EStr a]) d c unk = Ok [sa] /\
    convert_to_indices (Seq [EStr b]) d c unk = Ok [sb] /\
    convert_to_indices (Seq [EStr (a +:+ String ws b)]) d c unk
    = Ok [sa ++ sb].
Proof.
  intros Hws.
  exists (claim_indices d c unk a), (claim_indices d c unk b).
  rewrite !single_claim_indices.
  by rewrite (claim_indices_separator d c unk ws a b Hws).
Qed.

Lemma whitespace_joins_index_sequences_witness :
  convert_to_indices (Seq [EStr "my car"]) ["car"; "my"] ∅ 399999
  = Ok [[1] ++ [0]].
Proof.
  destruct (whitespace_joins_index_sequences ["car"; "my"] ∅ 399999
              " "%char "my" "car" eq_refl) as (sa & sb & Ha & Hb & Hab).
  injection Ha as <-. injection Hb as <-. exact Hab.
Defined.

Lemma training_encoder_unfold corpus d c unk :
  Training.convert_to_indices corpus d c unk
  = convert_to_indices corpus d c unk.
Proof. reflexivity. Qed.




(** X9: the sentinel is an ordinary index: when the vocabulary has a word
    at position [unk_word_index], that word and a word that is not in the
    vocabulary get the same encoding. *)
Theorem sentinel_collides_with_vocabulary_word (d : list string)
    (c : gmap string string) (n : nat)
    (text known_token text' unknown_token : string) :
  split text = [known_token] -> split text' = [unknown_token] ->
  c !! lower known_token = None -> c !! lower unknown_token = None ->
  remove_special_characters (lower known_token) <> EmptyString ->
  d !! n = Some (remove_special_characters (lower known_token)) ->
  (forall j : nat, (j < n)%nat ->
     d !! j <> Some (remove_special_characters (lower known_token))) ->
  remove_special_characters (lower unknown_token) <> EmptyString ->
  remove_special_characters (lower unknown_token) ∉ d ->
  convert_to_indices (Seq [EStr text]) d c (Z.of_nat n)
  = convert_to_indices (Seq [EStr text']) d c (Z.of_nat n).
Proof.
  intros Hs Hs' Hc Hc' Hne Hn Hfirst Hne' Habs.
  rewrite (single_token_indices d c _ text known_token Hs).
  rewrite (token_indices_no_contraction d c _ known_token Hc).
  unfold word_or_unk at 1. rewrite (index_first d _ n Hn Hfirst).
  rewrite (single_token_indices d c _ text' unknown_token Hs').
  rewrite (token_indices_no_contraction d c _ unknown_token Hc').
  rewrite (word_or_unk_absent d _ _ Habs).
  destruct (remove_special_characters (lower known_token)); [done|].
  by destruct (remove_special_characters (lower unknown_token)).
Qed.

Lemma sentinel_collides_with_vocabulary_word_witness :
  convert_to_indices (Seq [EStr "unk"]) ["the"; "car"; "unk"] ∅ 2
  = convert_to_indices (Seq [EStr "Zorb!"]) ["the"; "car"; "unk"] ∅ 2.
Proof.
  apply (sentinel_collides_with_vocabulary_word ["the"; "car"; "unk"] ∅
           2%nat "unk" "unk" "Zorb!" "Zorb!");
    try reflexivity; try discriminate.
  - intros [|[|j]] Hj; [discriminate|discriminate|lia].
  - intros Hin. repeat (apply elem_of_cons in Hin as [Hin|Hin];
                        [discriminate|]).
    by apply elem_of_nil in Hin.
Defined.

(** ** More on [run] *)

Lemma pad_single_row (s : list Z) :
  pad_sequences [s] maxSeqLength
  = [replicate (maxSeqLength - length (take maxSeqLength s)) 0
     ++ take maxSeqLength s].
Proof. reflexivity. Qed.

Lemma run_same_rows load_array g raw_data raw_data' texts texts' d c :
  load_array raw_data = Ok (Seq (map EStr texts)) ->
  load_array raw_data' = Ok (Seq (map EStr texts')) ->
  dictonary g = Some d -> contractions g = Some c ->
  encoded_rows d c texts = encoded_rows d c texts' ->
  run load_array g raw_data = run load_array g raw_data'.
Proof.
  intros Hl Hl' Hd Hc Hrows. unfold run.
  rewrite (run_try_texts load_array g raw_data texts d c Hl Hd Hc).
  rewrite (run_try_texts load_array g raw_data' texts' d c Hl' Hd Hc).
  by rewrite Hrows.
Qed.

(** X10: a claim text that is empty or all whitespace is not rejected: it
    is scored like any other, on the row of 125 zeros. *)
Theorem blank_claim_scored_on_zero_row
    (load_array : string -> result corpus) (g : globals) (raw_data : string)
    (text : string) (d : list string) (c : gmap string string)
    (session : list (list Z) -> result (list (list spec_float))) :
  load_array raw_data = Ok (Seq [EStr text]) ->
  all_space text = true ->
  dictonary g = Some d -> contractions g = Some c ->
  onnx_session g = Some session ->
  convert_to_indices (Seq [EStr text]) d c unk_word_index_default = Ok [[]] /\
  run load_array g raw_data
  = match (let* scores := session [replicate 125 0] in
           let* labels := argmax_axis1 scores in
           let* result := item labels in
           Ok result) with
    | Ok result => Label result
    | Raise e => Error (exn_msg e)
    end.
Proof.
  intros Hload Hblank Hd Hc Hs.
  assert (Hnone : claim_indices d c unk_word_index_default text = []).
  { unfold claim_indices. by rewrite (split_all_space text Hblank). }
  split; [by rewrite single_claim_indices, Hnone|].
  unfold run.
  rewrite (run_try_single load_array g raw_data text d c session)
    by assumption.
  unfold encoded_rows. cbn [map]. by rewrite Hnone.
Qed.

Lemma blank_claim_scored_on_zero_row_witness :
  run (fun _ => Ok (Seq [EStr "   "]))
    (Examples.ready Examples.favours_class_1) "[ ]" = Label 1.
Proof.
  rewrite (proj2 (blank_claim_scored_on_zero_row
                    (fun _ => Ok (Seq [EStr "   "]))
                    (Examples.ready Examples.favours_class_1) "[ ]" "   "
                    Examples.vocabulary Examples.contraction_map
                    Examples.favours_class_1
                    eq_refl eq_refl eq_refl eq_refl eq_refl)).
  reflexivity.
Defined.

(** X11: only the first 125 index entries of a claim reach the engine:
    whatever text follows a claim that already has 125 entries leaves the
    response of [run] unchanged. *)
Theorem run_ignores_text_after_125_entries
    (load_array : string -> result corpus) (g : globals)
    (raw_data raw_data' : string) (a b : string) (ws : ascii)
    (d : list string) (c : gmap string string) (s : list Z) :
  load_array raw_data = Ok (Seq [EStr a]) ->
  load_array raw_data' = Ok (Seq [EStr (a +:+ String ws b)]) ->
  isspace ws = true ->
  dictonary g = Some d -> contractions g = Some c ->
  convert_to_indices (Seq [EStr a]) d c unk_word_index_default = Ok [s] ->
  (125 <= length s)%nat ->
  run load_array g raw_data' = run load_array g raw_data.
Proof.
  intros Hl Hl' Hws Hd Hc Hs Hlen.
  rewrite single_claim_indices in Hs. injection Hs as Hs.
  apply (run_same_rows load_array g raw_data' raw_data
           [a +:+ String ws b] [a] d c Hl' Hl Hd Hc).
  unfold encoded_rows. cbn [map].
  rewrite (claim_indices_separator d c _ ws a b Hws), Hs.
  rewrite !pad_single_row. unfold maxSeqLength.
  by rewrite take_app_le by exact Hlen.
Qed.

(** X12: index 0 is also the padding value: a claim of fewer than 125
    entries and the same claim preceded by text that encodes to the single
    index 0 get the same response from [run]. *)
Theorem leading_index_zero_is_padding
    (load_array : string -> result corpus) (g : globals)
    (raw_data raw_data' : string) (first text : string) (ws : ascii)
    (d : list string) (c : gmap string string) (s : list Z) :
  load_array raw_data = Ok (Seq [EStr text]) ->
  load_array raw_data' = Ok (Seq [EStr (first +:+ String ws text)]) ->
  isspace ws = true ->
  dictonary g = Some d -> contractions g = Some c ->
  convert_to_indices (Seq [EStr first]) d c unk_word_index_default
  = Ok [[0]] ->
  convert_to_indices (Seq [EStr text]) d c unk_word_index_default = Ok [s] ->
  (length s < 125)%nat ->
  run load_array g raw_data' = run load_array g raw_data.
Proof.
  intros Hl Hl' Hws Hd Hc Hfirst Hs Hlen.
  rewrite single_claim_indices in Hfirst, Hs.
  injection Hfirst as Hfirst. injection Hs as Hs.
  apply (run_same_rows load_array g raw_data' raw_data
           [first +:+ String ws text] [text] d c Hl' Hl Hd Hc).
  unfold encoded_rows. cbn [map].
  rewrite (claim_indices_separator d c _ ws first text Hws), Hfirst, Hs.
  rewrite !pad_single_row. unfold maxSeqLength.
  rewrite !take_ge by (cbn [app length]; lia). cbn [app length].
  replace (125 - length s)%nat with (S (125 - S (length s))) by lia.
  f_equal. by rewrite replicate_S_end, <- app_assoc.
Qed.

Lemma run_ignores_text_after_125_entries_witness :
  run MoreExamples.load_long (Examples.ready Examples.favours_class_1) "longer"
  = run MoreExamples.load_long (Examples.ready Examples.favours_class_1) "long".
Proof.
  apply (run_ignores_text_after_125_entries MoreExamples.load_long
           (Examples.ready Examples.favours_class_1) "long" "longer"
           MoreExamples.long_claim "and the rest" " "%char
           Examples.vocabulary Examples.contraction_map (replicate 125 1));
    reflexivity.
Defined.

Lemma leading_index_zero_is_padding_witness :
  run MoreExamples.load_short (Examples.ready Examples.favours_class_1)
    "the short"
  = run MoreExamples.load_short (Examples.ready Examples.favours_class_1)
      "short".
Proof.
  apply (leading_index_zero_is_padding MoreExamples.load_short
           (Examples.ready Examples.favours_class_1) "short" "the short"
           "THE" "a claim" " "%char
           Examples.vocabulary Examples.contraction_map [2; 1]);
    try reflexivity.
  vm_compute. lia.
Defined.

(** ** When [run] returns a label *)

Lemma argmax_from_bounds (l : list spec_float) (mp : spec_float)
    (max_ind i : Z) :
  0 <= max_ind < i ->
  0 <= argmax_from mp max_ind i l < i + Z.of_nat (length l).
Proof.
  revert mp max_ind i. induction l as [|x l IH]; intros mp max_ind i Hb.
  - cbn [argmax_from length]. lia.
  - cbn [argmax_from length]. destruct (is_nan mp); [lia|].
    destruct (negb (SFleb x mp)).
    + specialize (IH x i (i + 1)). lia.
    + specialize (IH mp max_ind (i + 1)). lia.
Qed.

Lemma argmax_bounds (row : list spec_float) (k : Z) :
  argmax row = Ok k -> 0 <= k < Z.of_nat (length row).
Proof.
  destruct row as [|x l]; [discriminate|]. cbn [argmax]. intros [= <-].
  pose proof (argmax_from_bounds l x 0 1). cbn [length]. lia.
Qed.

Lemma argmax_rows_inv (a : list (list spec_float)) (acc r : list Z) :
  for_each (fun acc row => let* k := argmax row in Ok (acc ++ [k])) a acc
  = Ok r ->
  exists ks, r = acc ++ ks /\ Forall2 (fun row k => argmax row = Ok k) a ks.
Proof.
  revert acc. induction a as [|row a IH]; intros acc H.
  - injection H as <-. exists []. split; [by rewrite app_nil_r|constructor].
  - cbn [for_each] in H. destruct (argmax row) as [k|e] eqn:E;
      [|discriminate].
    cbn [bind] in H. apply IH in H as (ks & -> & Hks).
    exists (k :: ks). split; [by rewrite <- app_assoc|by constructor].
Qed.

Lemma run_try_ok_inv (load_array : string -> result corpus) (g : globals)
    (raw_data : string) (k : Z) :
  run_try load_array g raw_data = Ok k ->
  exists text d c session row,
    load_array raw_data = Ok (Seq [EStr text]) /\
    dictonary g = Some d /\ contractions g = Some c /\
    onnx_session g = Some session /\
    session (encoded_rows d c [text]) = Ok [row] /\
    argmax row = Ok k.
Proof.
  intros H. pose proof H as H0. unfold run_try in H.
  destruct (load_array raw_data) as [corpus|] eqn:Hload; [|discriminate].
  destruct (dictonary g) as [d|] eqn:Hd; [|discriminate].
  destruct (contractions g) as [c|] eqn:Hc; [|discriminate].
  cbn [bind global] in H.
  destruct (convert_to_indices corpus d c unk_word_index_default)
    as [seqs|] eqn:Hconv; [|discriminate].
  apply convert_to_indices_ok_inv in Hconv as (texts & -> & ->).
  destruct (decide (length texts = 1%nat)) as [Hone|Hne].
  - destruct texts as [|text [|]]; try discriminate. clear H.
    destruct (onnx_session g) as [session|] eqn:Hs.
    + rewrite (run_try_single load_array g raw_data text d c session)
        in H0 by assumption.
      destruct (session (encoded_rows d c [text])) as [scores|] eqn:Hsc;
        [|discriminate].
      cbn [bind] in H0.
      destruct (argmax_axis1 scores) as [labels|] eqn:Hl; [|discriminate].
      cbn [bind] in H0.
      destruct labels as [|k' [|]]; try discriminate. injection H0 as ->.
      apply argmax_rows_inv in Hl as (ks & Hks & Hall).
      cbn [app] in Hks. subst ks.
      inversion Hall as [|row k0 rows ks0 Hrow Hrest]; subst.
      inversion Hrest; subst.
      exists text, d, c, session, row. repeat split; assumption.
    + rewrite (run_try_texts load_array g raw_data [text] d c Hload Hd Hc)
        in H0.
      destruct (encoded_rows_shape d c [text]) as [_ Hrows].
      unfold encoded_rows in *. cbn [map pad_sequences] in *.
      apply Forall_inv in Hrows.
      rewrite np_reshape_one_row in H0 by exact Hrows. rewrite Hs in H0.
      discriminate.
  - rewrite (run_try_batch_not_one load_array g raw_data texts d c)
      in H0 by assumption.
    discriminate.
Qed.

(** X13: [run] returns a label only when everything is in place: the
    payload is a batch of exactly one claim text, [init] has defined the
    three module-level names, and the session returned exactly one row of
    class scores for the padded row of the claim; the label is then the
    argmax of that row, an index of one of its classes. *)
Theorem label_only_for_single_claim
    (load_array : string -> result corpus) (g : globals) (raw_data : string)
    (k : Z) :
  run load_array g raw_data = Label k ->
  exists text d c session row,
    load_array raw_data = Ok (Seq [EStr text]) /\
    dictonary g = Some d /\ contractions g = Some c /\
    onnx_session g = Some session /\
    session (encoded_rows d c [text]) = Ok [row] /\
    argmax row = Ok k /\
    0 <= k < Z.of_nat (length row).
Proof.
  unfold run. intros H.
  destruct (run_try load_array g raw_data) as [k'|] eqn:E; [|discriminate].
  injection H as ->.
  apply run_try_ok_inv in E as (text & d & c & session & row & H).
  exists text, d, c, session, row.
  destruct H as (? & ? & ? & ? & ? & Hk).
  pose proof (argmax_bounds row k Hk) as Hb.
  do 6 (split; [assumption|]). exact Hb.
Qed.

Lemma label_only_for_single_claim_witness :
  exists text, Examples.load_array (Examples.dumps Examples.batch_of_one)
               = Ok (Seq [EStr text]).
Proof.
  destruct (label_only_for_single_claim Examples.load_array
              (Examples.ready Examples.favours_class_1)
              (Examples.dumps Examples.batch_of_one) 1 eq_refl)
    as (text & _ & _ & _ & _ & Hload & _).
  exists text. exact Hload.
Defined.

(** ** The predictions of the review cell *)

Lemma SFcompare_antisym (a b : spec_float) :
  SFcompare b a = option_map CompOpp (SFcompare a b).
Proof.
  destruct a as [sa|sa| |sa ma ea], b as [sb|sb| |sb mb eb]; simpl;
    try destruct sa; try destruct sb; try reflexivity.
  - rewrite (Z.compare_antisym ea eb). destruct (ea ?= eb); simpl;
      try reflexivity.
    rewrite Pos.compare_cont_antisym, ?CompOpp_involutive. reflexivity.
  - rewrite (Z.compare_antisym ea eb). destruct (ea ?= eb); simpl;
      try reflexivity.
    rewrite Pos.compare_cont_antisym, ?CompOpp_involutive. reflexivity.
Qed.

Lemma argmax_two_scores (s0 s1 : spec_float) :
  is_nan s0 = false -> is_nan s1 = false ->
  argmax [s0; s1] = Ok (if SFltb s0 s1 then 1 else 0).
Proof.
  intros H0 H1. cbn [argmax argmax_from]. rewrite H0.
  unfold SFleb, SFltb. rewrite (SFcompare_antisym s0 s1).
  destruct s0, s1; try discriminate;
    by destruct (SFcompare _ _) as [[]|] eqn:E.
Qed.

(** X14: for two class scores that are numbers, the review cell predicts
    "Auto Insurance Claim" exactly when the score of class 1 is greater
    than the score of class 0, and "Home Insurance Claim" otherwise, equal
    scores included. *)
Theorem prediction_follows_higher_score (s0 s1 : spec_float) :
  is_nan s0 = false -> is_nan s1 = false ->
  Review.predictions [[s0; s1]]
  = Ok [if SFltb s0 s1 then "Auto Insurance Claim"
        else "Home Insurance Claim"].
Proof.
  intros H0 H1. unfold Review.predictions, argmax_axis1.
  cbn [for_each]. rewrite (argmax_two_scores s0 s1 H0 H1).
  cbn [bind app map]. by destruct (SFltb s0 s1).
Qed.

Lemma prediction_follows_higher_score_witness :
  Review.predictions [[Examples.quarter; Examples.three_quarters]]
  = Ok ["Auto Insurance Claim"] /\
  Review.predictions [[Examples.half; Examples.half]]
  = Ok ["Home Insurance Claim"].
Proof.
  split.
  - apply (prediction_follows_higher_score Examples.quarter
             Examples.three_quarters eq_refl eq_refl).
  - apply (prediction_follows_higher_score Examples.half Examples.half
             eq_refl eq_refl).
Defined.

(** ** [init] *)

Import ScoringServiceInit.

Lemma dict_snoc (pairs : list (string * string)) (k v : string) :
  dict (pairs ++ [(k, v)]) = <[k := v]> (dict pairs).
Proof. unfold dict. by rewrite fold_left_app. Qed.

Lemma dict_lookup_last (pairs : list (string * string)) (i : nat)
    (k v : string) :
  pairs !! i = Some (k, v) ->
  (forall (j : nat) (v' : string), (i < j)%nat -> pairs !! j <> Some (k, v')) ->
  dict pairs !! k = Some v.
Proof.
  revert i. induction pairs as [|[k' v'] pairs IH] using rev_ind;
    intros i Hi Hlast; [discriminate|].
  rewrite dict_snoc.
  destruct (decide (i = length pairs)) as [->|Hne].
  - rewrite list_lookup_middle in Hi by reflexivity.
    injection Hi as -> ->. apply lookup_insert_eq.
  - assert (Hlt : (i < length pairs)%nat).
    { apply lookup_lt_Some in Hi. rewrite length_app in Hi. simpl in Hi. lia. }
    rewrite lookup_app_l in Hi by exact Hlt.
    rewrite lookup_insert_ne.
    + apply (IH i Hi). intros j w Hj Hjw.
      apply (Hlast j w Hj). rewrite lookup_app_l; [exact Hjw|].
      by apply lookup_lt_Some in Hjw.
    + intros ->. apply (Hlast (length pairs) v' Hlt).
      by rewrite list_lookup_middle.
Qed.

Lemma dict_lookup_absent (pairs : list (string * string)) (k : string) :
  (forall (j : nat) (v : string), pairs !! j <> Some (k, v)) ->
  dict pairs !! k = None.
Proof.
  induction pairs as [|[k' v'] pairs IH] using rev_ind; intros Habs;
    [apply lookup_empty|].
  rewrite dict_snoc, lookup_insert_ne.
  - apply IH. intros j v Hj. apply (Habs j v).
    rewrite lookup_app_l; [exact Hj|]. by apply lookup_lt_Some in Hj.
  - intros ->. apply (Habs (length pairs) v').
    by rewrite list_lookup_middle.
Qed.

Lemma zip_lookup_Some (l1 l2 : list string) (j : nat) (a b : string) :
  zip l1 l2 !! j = Some (a, b) <-> l1 !! j = Some a /\ l2 !! j = Some b.
Proof.
  revert l2 j. induction l1 as [|x l1 IH]; intros [|y l2] [|j]; simpl;
    try (split; [discriminate|intros [? ?]; discriminate]).
  - split; [by intros [= -> ->]|by intros [[= ->] [= ->]]].
  - apply IH.
Qed.

(** X15: in [dict(zip(original, expanded))] a contraction that the table
    lists several times gets the expansion of its last row, and a word that
    the [original] column does not list is no key of the map. *)
Theorem contraction_table_last_row_wins (originals expandeds : list string)
    (k : string) :
  (forall (i : nat) (v : string),
     originals !! i = Some k -> expandeds !! i = Some v ->
     (forall j : nat, (i < j)%nat -> (j < length expandeds)%nat ->
        originals !! j <> Some k) ->
     dict (zip originals expandeds) !! k = Some v) /\
  ((k ∉ originals) -> dict (zip originals expandeds) !! k = None).
Proof.
  split.
  - intros i v Hk Hv Hlast. apply dict_lookup_last with i.
    + by apply zip_lookup_Some.
    + intros j v' Hj Hjv. apply zip_lookup_Some in Hjv as [Hjk Hjv].
      apply (Hlast j Hj); [|exact Hjk]. by apply lookup_lt_Some in Hjv.
  - intros Habs. apply dict_lookup_absent. intros j v Hj.
    apply zip_lookup_Some in Hj as [Hj _]. apply Habs.
    apply list_elem_of_lookup. eauto.
Qed.

Lemma contraction_table_last_row_wins_witness :
  dict (zip ["can't"; "i'm"; "can't"] ["can not"; "i am"; "cannot"])
  !! "can't" = Some "cannot" /\
  dict (zip ["can't"; "i'm"; "can't"] ["can not"; "i am"; "cannot"])
  !! "won't" = None.
Proof.
  pose proof (contraction_table_last_row_wins ["can't"; "i'm"; "can't"]
                ["can not"; "i am"; "cannot"]) as H.
  split.
  - apply (proj1 (H "can't") 2%nat "cannot"); [reflexivity|reflexivity|].
    intros j Hj Hlen. simpl in Hlen. lia.
  - apply (proj2 (H "won't")). intros Hin.
    repeat (apply elem_of_cons in Hin as [Hin|Hin]; [discriminate|]).
    by apply elem_of_nil in Hin.
Defined.

Lemma decode_all_inv (env : environment) (raw : list (list Byte.byte))
    (acc r : list string) :
  for_each (fun words word => let* w := decode env word in Ok (words ++ [w]))
    raw acc = Ok r ->
  exists ws, r = acc ++ ws /\ Forall2 (fun b w => decode env b = Ok w) raw ws.
Proof.
  revert acc. induction raw as [|b raw IH]; intros acc H.
  - injection H as <-. exists []. split; [by rewrite app_nil_r|constructor].
  - cbn [for_each] in H. destruct (decode env b) as [w|e] eqn:E;
      [|discriminate].
    cbn [bind] in H. apply IH in H as (ws & -> & Hws).
    exists (w :: ws). split; [by rewrite <- app_assoc|by constructor].
Qed.

(** X16: the vocabulary that [init] decodes has one word per entry of the
    words file, in the order of the file, so the positions the encoder
    returns are positions in the file; one word that does not decode makes
    the whole list fail with the exception of the first such word. *)
Theorem decoded_vocabulary_keeps_positions (env : environment)
    (raw : list (list Byte.byte)) :
  (forall words,
     decode_all env raw = Ok words ->
     Forall2 (fun b w => decode env b = Ok w) raw words) /\
  (forall before b after ws e,
     raw = before ++ b :: after ->
     Forall2 (fun b w => decode env b = Ok w) before ws ->
     decode env b = Raise e ->
     decode_all env raw = Raise e).
Proof.
  split.
  - intros words H. apply decode_all_inv in H as (ws & -> & Hws). exact Hws.
  - intros before b after ws e -> Hbefore Hb. unfold decode_all.
    rewrite for_each_app.
    assert (Hok : forall acc,
               for_each (fun words word =>
                           let* w := decode env word in Ok (words ++ [w]))
                 before acc = Ok (acc ++ ws)).
    { induction Hbefore as [|b' w' before' ws' Hb' _ IH]; intros acc.
      - by rewrite app_nil_r.
      - cbn [for_each]. rewrite Hb'. cbn [bind]. rewrite IH.
        by rewrite <- app_assoc. }
    rewrite Hok. cbn [bind for_each]. by rewrite Hb.
Qed.

Lemma decoded_vocabulary_keeps_positions_witness :
  Forall2 (fun b w => MoreExamples.decode_example b = Ok w)
    MoreExamples.words_file ["the"; "claim"; "a"; "cannot"] /\
  decode_all
    (MoreExamples.environment_with MoreExamples.words_file
       MoreExamples.model_registered)
    (MoreExamples.words_file ++ [[Byte.xff]; [Byte.x61]])
  = Raise (Exn ValueError
             ("'utf-8' codec can't decode byte 0xff in position 0: "
              +:+ "invalid start byte")).
Proof.
  pose proof (decoded_vocabulary_keeps_positions
                (MoreExamples.environment_with MoreExamples.words_file
                   MoreExamples.model_registered)) as H.
  assert (Hwords :
            Forall2 (fun b w => MoreExamples.decode_example b = Ok w)
              MoreExamples.words_file ["the"; "claim"; "a"; "cannot"]).
  { apply (proj1 (H MoreExamples.words_file)). reflexivity. }
  split; [exact Hwords|].
  apply (proj2 (H (MoreExamples.words_file ++ [[Byte.xff]; [Byte.x61]]))
           MoreExamples.words_file [Byte.xff] [[Byte.x61]]
           ["the"; "claim"; "a"; "cannot"]);
    [reflexivity|exact Hwords|reflexivity].
Defined.

(** The outcome of [init_try], step by step. *)
Lemma init_try_steps (env : environment) (g : globals) :
  init_try env g
  = match load_words_list env with
    | Raise e => (g, Raise e)
    | Ok raw =>
        match decode_all env raw with
        | Raise e =>
            (Globals (Some (undecoded raw)) (contractions g) (onnx_session g),
             Raise e)
        | Ok words =>
            match read_contractions env with
            | Raise e =>
                (Globals (Some words) (contractions g) (onnx_session g),
                 Raise e)
            | Ok df =>
                let c := dict (zip df.1 df.2) in
                match get_model_path env "claim_classifier_onnx" with
                | Raise e =>
                    (Globals (Some words) (Some c) (onnx_session g), Raise e)
                | Ok path =>
                    match inference_session env path with
                    | Raise e =>
                        (Globals (Some words) (Some c) (onnx_session g),
                         Raise e)
                    | Ok session =>
                        (Globals (Some words) (Some c) (Some session), Ok tt)
                    end
                end
            end
        end
    end.
Proof.
  unfold init_try, and_then, call, assign_dictonary, assign_contractions,
    assign_onnx_session.
  destruct (load_words_list env) as [raw|]; [|reflexivity].
  destruct (decode_all env raw) as [words|]; [|reflexivity].
  destruct (read_contractions env) as [df|]; [|reflexivity].
  cbn [dictonary contractions onnx_session].
  destruct (get_model_path env _) as [path|]; [|reflexivity].
  destruct (inference_session env path) as [session|]; reflexivity.
Qed.

Lemma run_without_session (load_array : string -> result corpus)
    (g : globals) (raw_data : string) :
  onnx_session g = None ->
  exists e, run_try load_array g raw_data = Raise e.
Proof.
  intros Hs. destruct (run_try load_array g raw_data) as [k|e] eqn:E;
    [|eauto].
  apply run_try_ok_inv in E as (? & ? & ? & session & ? & _ & _ & _ & Hsome & _).
  congruence.
Qed.

(** X17: starting from a module in which no name is defined, [init]
    defines the names in the order [dictonary], [contractions],
    [onnx_session] and stops at the first failure: the session is defined
    exactly when the [try] block completed, and a defined contraction map
    comes with the decoded vocabulary. *)
Theorem init_defines_names_in_order (env : environment) :
  let g := init env fresh in
  ((init_try env fresh).2 = Ok tt <-> is_Some (onnx_session g)) /\
  (is_Some (onnx_session g) -> is_Some (contractions g)) /\
  (is_Some (contractions g) ->
   exists raw words,
     load_words_list env = Ok raw /\ decode_all env raw = Ok words /\
     dictonary g = Some words).
Proof.
  cbv zeta. unfold init. rewrite init_try_steps.
  destruct (load_words_list env) as [raw|] eqn:Hraw;
    [destruct (decode_all env raw) as [words|] eqn:Hwords;
     [destruct (read_contractions env) as [df|];
      [cbv zeta;
       destruct (get_model_path env _) as [path|];
       [destruct (inference_session env path) as [session|]|]|]|]|];
    cbn [fst snd fresh dictonary contractions onnx_session].
  - split; [split; eauto|]. split; eauto.
  - split; [split; [discriminate|by intros ?%is_Some_None]|].
    split; [by intros ?%is_Some_None|eauto].
  - split; [split; [discriminate|by intros ?%is_Some_None]|].
    split; [by intros ?%is_Some_None|eauto].
  - split; [split; [discriminate|by intros ?%is_Some_None]|].
    split; by intros ?%is_Some_None.
  - split; [split; [discriminate|by intros ?%is_Some_None]|].
    split; by intros ?%is_Some_None.
  - split; [split; [discriminate|by intros ?%is_Some_None]|].
    split; by intros ?%is_Some_None.
Qed.

(** X18: when [init] fails, at whichever step, the service it leaves
    behind never returns a label: every later call of [run] returns an
    error text, whatever the payload. *)
Theorem failed_init_never_labels (env : environment) (e : exn)
    (load_array : string -> result corpus) (raw_data : string) :
  (init_try env fresh).2 = Raise e ->
  exists msg, run load_array (init env fresh) raw_data = Error msg.
Proof.
  intros Hfail.
  assert (Hs : onnx_session (init env fresh) = None).
  { unfold init. rewrite init_try_steps in *.
    destruct (load_words_list env) as [raw|]; [|reflexivity].
    destruct (decode_all env raw) as [words|]; [|reflexivity].
    destruct (read_contractions env) as [df|]; [|reflexivity].
    cbn in *. destruct (get_model_path env _) as [path|]; [|reflexivity].
    destruct (inference_session env path) as [session|]; [|reflexivity].
    discriminate. }
  destruct (run_without_session load_array _ raw_data Hs) as [e' He'].
  exists (exn_msg e'). by apply run_raise.
Qed.

(** X19: when every step of [init] succeeds, whatever the names held
    before, [run] then scores a single claim with the decoded vocabulary,
    the contraction map of the table and the session that [init] created. *)
Theorem init_then_run_scores (env : environment) (g0 : globals)
    (load_array : string -> result corpus) (raw_data text : string)
    (raw : list (list Byte.byte)) (words originals expandeds : list string)
    (path : string)
    (session : list (list Z) -> result (list (list spec_float))) :
  load_words_list env = Ok raw ->
  decode_all env raw = Ok words ->
  read_contractions env = Ok (originals, expandeds) ->
  get_model_path env "claim_classifier_onnx" = Ok path ->
  inference_session env path = Ok session ->
  load_array raw_data = Ok (Seq [EStr text]) ->
  init env g0
  = Globals (Some words) (Some (dict (zip originals expandeds)))
      (Some session) /\
  run load_array (init env g0) raw_data
  = match (let* scores :=
             session (encoded_rows words (dict (zip originals expandeds))
                        [text]) in
           let* labels := argmax_axis1 scores in
           let* result := item labels in
           Ok result) with
    | Ok result => Label result
    | Raise e => Error (exn_msg e)
    end.
Proof.
  intros Hraw Hwords Hdf Hpath Hsession Hload.
  assert (Hinit : init env g0
                  = Globals (Some words)
                      (Some (dict (zip originals expandeds))) (Some session)).
  { unfold init. rewrite init_try_steps, Hraw, Hwords, Hdf. cbn.
    by rewrite Hpath, Hsession. }
  split; [exact Hinit|]. rewrite Hinit. unfold run.
  by rewrite (run_try_single load_array _ raw_data text words
                (dict (zip originals expandeds)) session).
Qed.

Lemma init_defines_names_in_order_witness :
  exists raw words,
    load_words_list
      (MoreExamples.environment_with MoreExamples.words_file
         MoreExamples.model_missing) = Ok raw /\
    decode_all
      (MoreExamples.environment_with MoreExamples.words_file
         MoreExamples.model_missing) raw = Ok words /\
    dictonary
      (init (MoreExamples.environment_with MoreExamples.words_file
               MoreExamples.model_missing) fresh) = Some words.
Proof.
  apply (proj2 (proj2 (init_defines_names_in_order
                         (MoreExamples.environment_with
                            MoreExamples.words_file
                            MoreExamples.model_missing)))).
  eexists. reflexivity.
Defined.

Lemma failed_init_never_labels_witness :
  exists msg,
    run Examples.load_array
      (init (MoreExamples.environment_with [[Byte.xff]]
               MoreExamples.model_registered) fresh)
      (Examples.dumps Examples.batch_of_one)
    = Error msg.
Proof.
  apply (failed_init_never_labels
           (MoreExamples.environment_with [[Byte.xff]]
              MoreExamples.model_registered)
           (Exn ValueError
              ("'utf-8' codec can't decode byte 0xff in position 0: "
               +:+ "invalid start byte"))).
  reflexivity.
Defined.

Lemma init_then_run_scores_witness :
  run Examples.load_array
    (init (MoreExamples.environment_with MoreExamples.words_file
             MoreExamples.model_registered)
       (Globals None (Some ∅) None))
    (Examples.dumps Examples.batch_of_one)
  = Label 1.
Proof.
  rewrite (proj2 (init_then_run_scores
                    (MoreExamples.environment_with MoreExamples.words_file
                       MoreExamples.model_registered)
                    (Globals None (Some ∅) None)
                    Examples.load_array
                    (Examples.dumps Examples.batch_of_one) "claim A"
                    MoreExamples.words_file
                    ["the"; "claim"; "a"; "cannot"] ["can't"] ["cannot"]
                    "azureml-models/claim_classifier_onnx/1/model.onnx"
                    Examples.favours_class_1
                    eq_refl eq_refl eq_refl eq_refl eq_refl eq_refl)).
  reflexivity.
Defined.


(** ** Contraction keys and the training features *)




(** X21: with a vocabulary of more than 399999 words, as the one the
    notebooks load, the feature matrix [X] of the training notebook has one
    row of 125 entries per claim and every entry is a position of the
    vocabulary, so it is a valid row of the embedding matrix. *)
Theorem features_are_vocabulary_positions (d : list string)
    (c : gmap string string) (texts : list string) :
  399999 < Z.of_nat (length d) ->
  exists claims_corpus_indices,
    Training.convert_to_indices (Seq (map EStr texts)) d c
      Training.unk_word_index_default = Ok claims_corpus_indices /\
    let X := pad_sequences claims_corpus_indices maxSeqLength in
    length X = length texts /\
    Forall (fun row =>
              length row = 125%nat /\
              Forall (fun k => 0 <= k < Z.of_nat (length d)) row) X.
Proof.
  intros Hd.
  exists (map (claim_indices d c unk_word_index_default) texts).
  split; [rewrite training_encoder_unfold; apply convert_to_indices_texts|].
  cbv zeta.
  destruct (pad_sequences_shape
              (map (claim_indices d c unk_word_index_default) texts)
              maxSeqLength) as [Hlen Hrows].
  rewrite length_map in Hlen. split; [exact Hlen|].
  apply Forall_forall. intros row Hrow. split.
  - rewrite Forall_forall in Hrows. by apply Hrows.
  - unfold pad_sequences in Hrow.
    apply list_elem_of_In, in_map_iff in Hrow as (s & <- & Hs).
    apply in_map_iff in Hs as (text & <- & _).
    apply Forall_app. split.
    + apply Forall_forall. intros k Hk.
      apply elem_of_replicate in Hk as [-> _]. lia.
    + apply Forall_take.
      eapply Forall_impl; [apply claim_indices_range|].
      intros k [Hk| ->]; [exact Hk|]. unfold unk_word_index_default. lia.
Qed.

Lemma features_are_vocabulary_positions_witness :
  exists claims_corpus_indices,
    Training.convert_to_indices (Seq (map EStr ["a claim"]))
      (replicate (Z.to_nat 400000) "claim") ∅
      Training.unk_word_index_default = Ok claims_corpus_indices.
Proof.
  destruct (features_are_vocabulary_positions
              (replicate (Z.to_nat 400000) "claim") ∅ ["a claim"])
    as (seqs & Hseqs & _).
  - rewrite length_replicate, Z2Nat.id; lia.
  - exists seqs. exact Hseqs.
Defined.
